(** * YourBank ledger core: a shallow embedding of [backend/api.py]

    The development follows the ledger handlers of [backend/api.py] over the
    tables declared in [database/models.py]:

    - [account_balance]            (api.py, lines 300-311)
    - [account_transactions]       (api.py, lines 316-402)
    - [ops_approve_request]        (api.py, lines 407-456)
    - [ops_post_deposit]           (api.py, lines 524-557)
    - [ops_accept_cash_deposit]    (api.py, lines 562-603)
    - [ib_transfer]                (api.py, lines 742-801)
    - [ops_loan_disburse]          (api.py, lines 1093-1161)

    Conventions of the embedding.
    - Primary keys, timestamps and serials are integers ([Z]).
    - A [Numeric(14, 2)] amount is the integer number of hundredths.
    - A nullable column is an [option].
    - A table is the list of its rows in insertion order; a table whose
      rows are created by the handlers also carries its auto-increment
      counter.
    - A handler is a function from the store and the request to the new
      store and the response; the session is committed at the end of every
      successful handler, so the returned store is the committed one.
    - [bcrypt.verify] is a parameter of the development. *)

From Stdlib Require Import ZArith List String Ascii Bool Lia.
From Stdlib Require Import Sorting.Sorted Sorting.Permutation.
From Stdlib Require Import DecimalString.
From Stdlib Require DecimalZ.
Import ListNotations.
Open Scope Z_scope.

(** ** Enumerations ([database/models.py], lines 51-85) *)

Inductive AccountStatus := APPROVAL_PENDING | ACTIVE | FROZEN.
Inductive TxType := DEPOSIT | TRANSFER | LOAN_DISBURSAL | EMI_PAYMENT.
Inductive TxStatus := TX_PENDING | POSTED | FAILED.
Inductive RequestStatus := PENDING | APPROVED | REJECTED.

Definition AccountStatus_eqb (a b : AccountStatus) : bool :=
  match a, b with
  | APPROVAL_PENDING, APPROVAL_PENDING | ACTIVE, ACTIVE | FROZEN, FROZEN => true
  | _, _ => false
  end.

Definition RequestStatus_eqb (a b : RequestStatus) : bool :=
  match a, b with
  | PENDING, PENDING | APPROVED, APPROVED | REJECTED, REJECTED => true
  | _, _ => false
  end.

(** Reference GL codes (models.py, lines 89-90). *)
Definition GL_CASH_VAULT : string := "CASH_VAULT".
Definition GL_BANK_LOAN : string := "BANK_LOAN_GL".

(** ** Rows *)

Record Role := mkRole { role_id : Z; role_name : string }.
Record UserRole := mkUserRole { ur_user_id : Z; ur_role_id : Z }.
Record Customer := mkCustomer { cust_id : Z; cust_user_id : Z }.
Record Branch := mkBranch { br_id : Z; br_code : string }.

Record AccountNumberSeq := mkSeq {
  seq_id : Z;
  seq_branch_id : Z;
  next_serial : Z }.

Record AccountRequest := mkRequest {
  ar_id : Z;
  ar_customer_id : Z;
  ar_branch_id : Z;
  ar_product : string;
  ar_status : RequestStatus }.

Record Account := mkAccount {
  acc_id : Z;
  acc_customer_id : Z;
  acc_branch_id : Z;
  account_no : string;
  acc_product : string;
  acc_status : AccountStatus;
  acc_created_at : Z }.

Record InternetBanking := mkIB { ib_account_id : Z; pin_hash : string }.

Record Transaction := mkTx {
  tx_id : Z;
  tx_type : TxType;
  tx_status : TxStatus;
  created_by : Z;
  created_at : option Z }.

Record LedgerEntry := mkEntry {
  le_id : Z;
  transaction_id : Z;
  account_id : option Z;
  gl_code : option string;
  dr_cr : string;
  amount : Z;
  posted_at : option Z }.

Record LoanApplication := mkLoanApp {
  la_id : Z;
  la_customer_id : Z;
  la_amount : Z;
  la_status : RequestStatus }.

(** ** The store *)

Record Table (A : Type) := mkTable { rows : list A; next_id : Z }.
Arguments mkTable {A} _ _.
Arguments rows {A} _.
Arguments next_id {A} _.

(** [db.session.add(row); db.session.flush()]: the row gets the next
    auto-increment key and is appended. *)
Definition db_add {A : Type} (mk : Z -> A) (t : Table A) : A * Table A :=
  let r := mk (next_id t) in
  (r, mkTable (rows t ++ [r]) (next_id t + 1)).

Record Store := mkStore {
  roles : list Role;
  user_roles : list UserRole;
  customers : list Customer;
  branches : list Branch;
  account_number_seq : Table AccountNumberSeq;
  account_requests : list AccountRequest;
  accounts : Table Account;
  internet_banking : list InternetBanking;
  transactions : Table Transaction;
  ledger_entries : Table LedgerEntry;
  loan_applications : list LoanApplication }.

Definition set_account_number_seq (s : Store) (t : Table AccountNumberSeq) : Store :=
  mkStore (roles s) (user_roles s) (customers s) (branches s) t
          (account_requests s) (accounts s) (internet_banking s)
          (transactions s) (ledger_entries s) (loan_applications s).

Definition set_account_requests (s : Store) (l : list AccountRequest) : Store :=
  mkStore (roles s) (user_roles s) (customers s) (branches s) (account_number_seq s)
          l (accounts s) (internet_banking s)
          (transactions s) (ledger_entries s) (loan_applications s).

Definition set_accounts (s : Store) (t : Table Account) : Store :=
  mkStore (roles s) (user_roles s) (customers s) (branches s) (account_number_seq s)
          (account_requests s) t (internet_banking s)
          (transactions s) (ledger_entries s) (loan_applications s).

Definition set_transactions (s : Store) (t : Table Transaction) : Store :=
  mkStore (roles s) (user_roles s) (customers s) (branches s) (account_number_seq s)
          (account_requests s) (accounts s) (internet_banking s)
          t (ledger_entries s) (loan_applications s).

Definition set_ledger_entries (s : Store) (t : Table LedgerEntry) : Store :=
  mkStore (roles s) (user_roles s) (customers s) (branches s) (account_number_seq s)
          (account_requests s) (accounts s) (internet_banking s)
          (transactions s) t (loan_applications s).

(** The request context: [current_user.id] and the database clock that
    fills the [server_default=current_timestamp()] columns. *)
Record Ctx := mkCtx { current_user : Z; now : Z }.

(** ** Helpers (api.py, lines 88-120) *)

(** [Customer.query.filter_by(user_id=current_user.id).first()] *)
Definition _get_customer (s : Store) (ctx : Ctx) : option Customer :=
  find (fun c => cust_user_id c =? current_user ctx) (customers s).

(** [_first_account_for_user(active_only) is not None]: the handlers below
    only test the result of [_require_any_account] for presence. *)
Definition _has_any_account (s : Store) (ctx : Ctx) (active_only : bool) : bool :=
  match _get_customer s ctx with
  | None => false
  | Some cust =>
      existsb (fun a => (acc_customer_id a =? cust_id cust)
                        && (negb active_only || AccountStatus_eqb (acc_status a) ACTIVE))
              (rows (accounts s))
  end.

Definition _has_role (s : Store) (ctx : Ctx) (name : string) : bool :=
  match find (fun r => String.eqb (role_name r) name) (roles s) with
  | None => false
  | Some role =>
      existsb (fun l => (ur_user_id l =? current_user ctx) && (ur_role_id l =? role_id role))
              (user_roles s)
  end.

Definition is_staff (s : Store) (ctx : Ctx) : bool :=
  _has_role s ctx "EMPLOYEE" || _has_role s ctx "ADMIN".

(** [Account.query.get(id)] and [Account.query.filter_by(account_no=...).first()] *)
Definition get_account (s : Store) (id : Z) : option Account :=
  find (fun a => acc_id a =? id) (rows (accounts s)).

Definition account_by_no (s : Store) (no : string) : option Account :=
  find (fun a => String.eqb (account_no a) no) (rows (accounts s)).

(** ** Balance (api.py, lines 307-311; the same two aggregates are repeated
    at 549-553, 593-597, 781-785 and 793-797) *)

Definition is_account (id : Z) (o : option Z) : bool :=
  match o with Some a => a =? id | None => false end.

(** [func.coalesce(func.sum(LedgerEntry.amount), 0)] *)
Definition sum_amount (es : list LedgerEntry) : Z :=
  fold_right (fun e acc => amount e + acc) 0 es.

Definition side_total (s : Store) (id : Z) (side : string) : Z :=
  sum_amount (filter (fun e => is_account id (account_id e) && String.eqb (dr_cr e) side)
                     (rows (ledger_entries s))).

Definition ledger_balance (s : Store) (id : Z) : Z :=
  side_total s id "CR" - side_total s id "DR".



(** ** Query combinators

    [ORDER BY] with a total comparison: the rows are inserted one by one
    into an ordered list. *)

Fixpoint insert_by {A : Type} (leb : A -> A -> bool) (x : A) (l : list A) : list A :=
  match l with
  | [] => [x]
  | y :: l' => if leb x y then x :: l else y :: insert_by leb x l'
  end.

Definition order_by {A : Type} (leb : A -> A -> bool) (l : list A) : list A :=
  fold_right (insert_by leb) [] l.

(** [rows[-1]] guarded by [if rows:] *)
Fixpoint last_row {A : Type} (l : list A) : option A :=
  match l with
  | [] => None
  | [x] => Some x
  | _ :: l' => last_row l'
  end.

(** ** Transaction history (api.py, lines 316-402) *)

Inductive LimitArg :=
| LimitAbsent            (* no [limit] argument, or an empty one *)
| LimitInvalid           (* [int(limit_raw)] raises *)
| LimitInt (n : Z).

Inductive BeforeArg :=
| BeforeAbsent           (* no [before] argument, or an empty one *)
| BeforeInvalid          (* neither ISO format nor [%Y-%m-%d] *)
| BeforeAt (t : Z).

(** Lines 326-330. *)
Definition page_limit (l : LimitArg) : Z :=
  let limit := match l with LimitInt n => n | LimitAbsent | LimitInvalid => 20 end in
  Z.max 1 (Z.min limit 100).

(** [LedgerEntry.posted_at < before_dt]; a NULL timestamp never satisfies
    the comparison. *)
Definition posted_before (before : option Z) (e : LedgerEntry) : bool :=
  match before with
  | None => true
  | Some b => match posted_at e with Some p => p <? b | None => false end
  end.

(** [desc(posted_at), desc(id)]; NULL is below every timestamp. *)
Definition ts_ltb (a b : option Z) : bool :=
  match a, b with
  | Some x, Some y => x <? y
  | None, Some _ => true
  | _, None => false
  end.

Definition ts_eqb (a b : option Z) : bool :=
  match a, b with
  | Some x, Some y => x =? y
  | None, None => true
  | _, _ => false
  end.

Definition newest_first (a b : LedgerEntry) : bool :=
  ts_ltb (posted_at b) (posted_at a)
  || (ts_eqb (posted_at a) (posted_at b) && (le_id b <=? le_id a)).

Definition row_newest_first (x y : LedgerEntry * Transaction) : bool :=
  newest_first (fst x) (fst y).

(** Lines 340-342: the entries of the account joined to their transaction. *)
Definition joined (s : Store) (es : list LedgerEntry) : list (LedgerEntry * Transaction) :=
  flat_map (fun e =>
              match find (fun t => tx_id t =? transaction_id e) (rows (transactions s)) with
              | Some t => [(e, t)]
              | None => []
              end) es.

Definition history_candidates (s : Store) (id : Z) (before : option Z)
  : list (LedgerEntry * Transaction) :=
  joined s (filter (fun e => is_account id (account_id e) && posted_before before e)
                   (rows (ledger_entries s))).

(** Lines 340-346. *)
Definition history_rows (s : Store) (id : Z) (before : option Z) (limit : Z)
  : list (LedgerEntry * Transaction) :=
  firstn (Z.to_nat limit) (order_by row_newest_first (history_candidates s id before)).

(** [str.upper] on ASCII text. *)
Definition upper_ascii (c : ascii) : ascii :=
  let n := nat_of_ascii c in
  if ((97 <=? n) && (n <=? 122))%nat then ascii_of_nat (n - 32) else c.

Fixpoint upper (s : string) : string :=
  match s with
  | EmptyString => EmptyString
  | String c s' => String (upper_ascii c) (upper s')
  end.

(** [x or default] on strings and on nullable strings. *)
Definition str_or (x default : string) : string :=
  match x with EmptyString => default | _ => x end.

Definition opt_str_or (x : option string) (default : string) : string :=
  match x with Some v => str_or v default | None => default end.

(** The filter of lines 350-355. *)
Definition is_sibling (le e : LedgerEntry) : bool :=
  (transaction_id e =? transaction_id le)
  && match account_id e with
     | Some a => match account_id le with Some own => negb (a =? own) | None => true end
     | None => match gl_code e with Some _ => true | None => false end
     end.

Definition id_ascending (a b : LedgerEntry) : bool := le_id a <=? le_id b.

Definition siblings (s : Store) (le : LedgerEntry) : list LedgerEntry :=
  order_by id_ascending (filter (is_sibling le) (rows (ledger_entries s))).

(** [f"GL:{s.gl_code}"] prints a NULL code as [None]. *)
Definition gl_label (code : option string) : string :=
  if String.eqb (upper (opt_str_or code "")) GL_CASH_VAULT then "CASH"%string
  else ("GL:" ++ match code with Some c => c | None => "None" end)%string.

(** [if s.account_id:] is false on NULL and on 0. *)
Definition truthy_id (o : option Z) : option Z :=
  match o with
  | Some a => if a =? 0 then None else Some a
  | None => None
  end.

(** Lines 348-366; the result is [(is_acc, cp_label, cp_acc_no, cp_gl)]. *)
Definition _format_counterparty (s : Store) (le : LedgerEntry)
  : bool * string * option string * option string :=
  match siblings s le with
  | [] => (false, "N/A"%string, None, None)
  | sib :: _ =>
      match truthy_id (account_id sib) with
      | Some a =>
          match get_account s a with
          | Some other_acc => (true, account_no other_acc, Some (account_no other_acc), None)
          | None => (true, "Account"%string, None, None)
          end
      | None => (false, gl_label (gl_code sib), None, gl_code sib)
      end
  end.

(** One element of [items]; the [date] and [time] strings are renderings of
    [posted_at] and are not kept. *)
Record Item := mkItem {
  it_posted_at : option Z;
  it_type : TxType;
  it_from : string;
  it_to : string;
  it_from_account_no : option string;
  it_to_account_no : option string;
  it_dr_cr : string;
  it_amount : Z }.

(** [le.posted_at or tx.created_at] *)
Definition row_time (r : LedgerEntry * Transaction) : option Z :=
  match posted_at (fst r) with
  | Some p => Some p
  | None => created_at (snd r)
  end.

(** Lines 370-397. *)
Definition format_item (s : Store) (acc : Account) (r : LedgerEntry * Transaction) : Item :=
  let '(le, tx) := r in
  let '(is_acc, cp_label, cp_acc_no, _) := _format_counterparty s le in
  let this_acc_no := account_no acc in
  if String.eqb (upper (dr_cr le)) "CR" then
    mkItem (row_time r) (tx_type tx)
           (str_or cp_label "N/A") this_acc_no
           (if is_acc then cp_acc_no else None) (Some this_acc_no)
           (dr_cr le) (amount le)
  else
    mkItem (row_time r) (tx_type tx)
           this_acc_no (str_or cp_label "N/A")
           (Some this_acc_no) (if is_acc then cp_acc_no else None)
           (dr_cr le) (amount le).

Inductive HistoryResponse :=
| HistoryOk (items : list Item) (next_before : option Z)
| HistoryNotFound
| HistoryInvalidCursor.

(** Lines 398-401; [None] stands for the empty string. *)
Definition next_cursor (page : list (LedgerEntry * Transaction)) : option Z :=
  match last_row page with
  | Some r => row_time r
  | None => None
  end.

Definition owned_account (s : Store) (ctx : Ctx) (id : Z) : option Account :=
  match get_account s id, _get_customer s ctx with
  | Some acc, Some cust => if acc_customer_id acc =? cust_id cust then Some acc else None
  | _, _ => None
  end.

Definition account_transactions (s : Store) (ctx : Ctx) (id : Z)
           (before_raw : BeforeArg) (limit_raw : LimitArg) : HistoryResponse :=
  match owned_account s ctx id with
  | None => HistoryNotFound
  | Some acc =>
      let limit := page_limit limit_raw in
      match before_raw with
      | BeforeInvalid => HistoryInvalidCursor
      | BeforeAbsent =>
          let page := history_rows s id None limit in
          HistoryOk (map (format_item s acc) page) (next_cursor page)
      | BeforeAt t =>
          let page := history_rows s id (Some t) limit in
          HistoryOk (map (format_item s acc) page) (next_cursor page)
      end
  end.

(** ** Request values

    A monetary field of the JSON body, as the handlers distinguish it.
    [RawText p] is any other value; [p] is what [Decimal(str(value))]
    yields, a finite decimal counted in hundredths, and [None] when it
    raises [InvalidOperation]. *)
Inductive RawAmount :=
| RawMissing             (* the key is not in the body *)
| RawNull                (* [None] *)
| RawEmpty               (* the empty string *)
| RawZero                (* the number 0 *)
| RawText (p : option Z).

(** [Decimal(str(data.get(key)))] *)
Definition decimal_of_get (raw : RawAmount) : option Z :=
  match raw with
  | RawMissing | RawNull | RawEmpty => None
  | RawZero => Some 0
  | RawText p => p
  end.

(** [Decimal(str(data.get(key, "0")))] *)
Definition decimal_of_get_default0 (raw : RawAmount) : option Z :=
  match raw with
  | RawMissing | RawZero => Some 0
  | RawNull | RawEmpty => None
  | RawText p => p
  end.

(** [str(serial)] *)
Definition str_of_int (n : Z) : string := NilZero.string_of_int (Z.to_int n).

(** ** Posting: one transaction and its debit and credit entry
    (the statements at lines 448-452, 543-547, 584-591, 788-791 and
    1136-1140). *)
Definition post_entries (s : Store) (ctx : Ctx) (ty : TxType)
           (dr_account : option Z) (dr_gl : option string)
           (cr_account : option Z) (cr_gl : option string)
           (amt : Z) : Transaction * Store :=
  let '(tx, txs) :=
    db_add (fun id => mkTx id ty POSTED (current_user ctx) (Some (now ctx))) (transactions s) in
  let s1 := set_transactions s txs in
  let '(_, l1) :=
    db_add (fun id => mkEntry id (tx_id tx) dr_account dr_gl "DR" amt (Some (now ctx)))
           (ledger_entries s1) in
  let '(_, l2) :=
    db_add (fun id => mkEntry id (tx_id tx) cr_account cr_gl "CR" amt (Some (now ctx))) l1 in
  (tx, set_ledger_entries s1 l2).

(** ** Approval of an account request (api.py, lines 407-456) *)

Inductive ApproveError :=
| EmployeeRoleRequired
| InvalidInitialDeposit
| NegativeInitialDeposit
| RequestNotFound
| RequestAlready (st : RequestStatus)
| BranchNotFound.

Inductive ApproveResponse :=
| ApproveOk (new_account_id : Z) (new_account_no : string)
            (request_status : RequestStatus) (initial_deposit : Z)
| ApproveFail (e : ApproveError).

(** Lines 413-421. *)
Definition approve_initial_deposit (init_raw : RawAmount) : ApproveError + Z :=
  match init_raw with
  | RawMissing | RawNull | RawEmpty | RawZero => inr 0
  | RawText None => inl InvalidInitialDeposit
  | RawText (Some v) => if v <? 0 then inl NegativeInitialDeposit else inr v
  end.

Definition get_request (s : Store) (req_id : Z) : option AccountRequest :=
  find (fun r => ar_id r =? req_id) (account_requests s).

Definition get_branch (s : Store) (id : Z) : option Branch :=
  find (fun b => br_id b =? id) (branches s).

(** [AccountNumberSeq.query.filter_by(branch_id=br.id).first()] *)
Definition seq_for_branch (s : Store) (branch_id : Z) : option AccountNumberSeq :=
  find (fun q => seq_branch_id q =? branch_id) (rows (account_number_seq s)).

(** The [UPDATE] that the assignment [seq.next_serial = serial + 1] flushes. *)
Definition set_next_serial (id v : Z) (t : Table AccountNumberSeq) : Table AccountNumberSeq :=
  mkTable (map (fun q => if seq_id q =? id then mkSeq (seq_id q) (seq_branch_id q) v else q)
               (rows t))
          (next_id t).

(** Lines 430-436: the serial of the new account and the store with the
    sequence advanced. *)
Definition take_serial (s : Store) (br : Branch) : Z * Store :=
  let '(seq, t) :=
    match seq_for_branch s (br_id br) with
    | Some q => (q, account_number_seq s)
    | None => db_add (fun id => mkSeq id (br_id br) 1000000001) (account_number_seq s)
    end in
  let serial := next_serial seq in
  (serial, set_account_number_seq s (set_next_serial (seq_id seq) (serial + 1) t)).

(** The [UPDATE] that [ar.status = RequestStatus.APPROVED] flushes. *)
Definition set_request_status (id : Z) (st : RequestStatus) (l : list AccountRequest)
  : list AccountRequest :=
  map (fun r => if ar_id r =? id
                then mkRequest (ar_id r) (ar_customer_id r) (ar_branch_id r) (ar_product r) st
                else r) l.

Definition ops_approve_request (s : Store) (ctx : Ctx) (req_id : Z) (init_raw : RawAmount)
  : Store * ApproveResponse :=
  if negb (is_staff s ctx) then (s, ApproveFail EmployeeRoleRequired) else
  match approve_initial_deposit init_raw with
  | inl e => (s, ApproveFail e)
  | inr init_amt =>
      match get_request s req_id with
      | None => (s, ApproveFail RequestNotFound)
      | Some ar =>
          if negb (RequestStatus_eqb (ar_status ar) PENDING)
          then (s, ApproveFail (RequestAlready (ar_status ar)))
          else
            match get_branch s (ar_branch_id ar) with
            | None => (s, ApproveFail BranchNotFound)
            | Some br =>
                let '(serial, s1) := take_serial s br in
                let account_no := (br_code br ++ str_of_int serial)%string in
                let '(acc, accs) :=
                  db_add (fun id => mkAccount id (ar_customer_id ar) (br_id br) account_no
                                              (ar_product ar) ACTIVE (now ctx))
                         (accounts s1) in
                let s2 := set_accounts s1 accs in
                let s3 :=
                  if 0 <? init_amt
                  then snd (post_entries s2 ctx DEPOSIT None (Some GL_CASH_VAULT)
                                         (Some (acc_id acc)) None init_amt)
                  else s2 in
                let s4 := set_account_requests s3
                            (set_request_status (ar_id ar) APPROVED (account_requests s3)) in
                (s4, ApproveOk (acc_id acc) (account_no) APPROVED init_amt)
            end
      end
  end.

(** ** Cash deposits (api.py, lines 524-557 and 562-603) *)

Inductive DepositError :=
| DepEmployeeRoleRequired
| DepInvalidAmount
| DepAmountNotPositive
| DepAccountNoRequired
| DepAccountNotFound
| DepAccountNotActive.

Inductive DepositResponse :=
| DepositOk (dep_transaction_id dep_account_id : Z) (dep_account_no : string)
            (posted_amount new_balance : Z)
| DepositFail (e : DepositError).

(** Lines 538-557, shared with 579-603. *)
Definition deposit_into (s : Store) (ctx : Ctx) (found : option Account) (amt : Z)
  : Store * DepositResponse :=
  match found with
  | None => (s, DepositFail DepAccountNotFound)
  | Some acc =>
      if negb (AccountStatus_eqb (acc_status acc) ACTIVE)
      then (s, DepositFail DepAccountNotActive)
      else
        let '(tx, s') := post_entries s ctx DEPOSIT None (Some GL_CASH_VAULT)
                                      (Some (acc_id acc)) None amt in
        (s', DepositOk (tx_id tx) (acc_id acc) (account_no acc) amt
                       (ledger_balance s' (acc_id acc)))
  end.

Definition ops_post_deposit (s : Store) (ctx : Ctx) (account_id : option Z)
           (amount_raw : RawAmount) : Store * DepositResponse :=
  if negb (is_staff s ctx) then (s, DepositFail DepEmployeeRoleRequired) else
  match decimal_of_get amount_raw with
  | None => (s, DepositFail DepInvalidAmount)
  | Some amt =>
      if amt <=? 0 then (s, DepositFail DepAmountNotPositive) else
      deposit_into s ctx
                   (match account_id with Some id => get_account s id | None => None end)
                   amt
  end.

Definition ops_accept_cash_deposit (s : Store) (ctx : Ctx) (acc_no : string)
           (amount_raw : RawAmount) : Store * DepositResponse :=
  if negb (is_staff s ctx) then (s, DepositFail DepEmployeeRoleRequired) else
  match decimal_of_get_default0 amount_raw with
  | None => (s, DepositFail DepInvalidAmount)
  | Some amt =>
      if amt <=? 0 then (s, DepositFail DepAmountNotPositive) else
      if String.eqb acc_no "" then (s, DepositFail DepAccountNoRequired) else
      deposit_into s ctx (account_by_no s acc_no) amt
  end.

(** ** Loan disbursal (api.py, lines 1093-1161)

    The rate and the term only reach [LoanApplicationDetail], and the
    handler's other writes go to [LoanAppHistory]; no ledger handler reads
    either table, so the request keeps whether the two values parse. *)

Record DisburseRequest := mkDisburse {
  dr_account_no : string;
  dr_amount : RawAmount;
  dr_rate_valid : bool;
  dr_term_valid : bool }.

Inductive DisburseError :=
| DisbForbidden
| DisbInvalidRate
| DisbInvalidTerm
| DisbApplicationNotFound
| DisbNotApproved
| DisbAccountNotFound
| DisbAccountNotActive
| DisbInvalidAmount
| DisbAmountNotPositive.

Inductive DisburseResponse :=
| DisburseOk (loan_app_id disb_account_id : Z) (disb_account_no : string)
             (disbursed_amount : Z)
| DisburseFail (e : DisburseError).

(** [Decimal(str(disburse_amount_raw or app.amount))] *)
Definition disburse_amount (raw : RawAmount) (app : LoanApplication) : option Z :=
  match raw with
  | RawMissing | RawNull | RawEmpty | RawZero => Some (la_amount app)
  | RawText p => p
  end.

Definition ops_loan_disburse (s : Store) (ctx : Ctx) (loan_app_id : Z) (r : DisburseRequest)
  : Store * DisburseResponse :=
  if negb (is_staff s ctx) then (s, DisburseFail DisbForbidden) else
  if negb (dr_rate_valid r) then (s, DisburseFail DisbInvalidRate) else
  if negb (dr_term_valid r) then (s, DisburseFail DisbInvalidTerm) else
  match find (fun a => la_id a =? loan_app_id) (loan_applications s) with
  | None => (s, DisburseFail DisbApplicationNotFound)
  | Some app =>
      if negb (RequestStatus_eqb (la_status app) APPROVED)
      then (s, DisburseFail DisbNotApproved) else
      match account_by_no s (dr_account_no r) with
      | None => (s, DisburseFail DisbAccountNotFound)
      | Some acc =>
          if negb (AccountStatus_eqb (acc_status acc) ACTIVE)
          then (s, DisburseFail DisbAccountNotActive) else
          match disburse_amount (dr_amount r) app with
          | None => (s, DisburseFail DisbInvalidAmount)
          | Some amt =>
              if amt <=? 0 then (s, DisburseFail DisbAmountNotPositive) else
              let '(_, s') := post_entries s ctx LOAN_DISBURSAL None (Some GL_BANK_LOAN)
                                           (Some (acc_id acc)) None amt in
              (s', DisburseOk (la_id app) (acc_id acc) (account_no acc) amt)
          end
      end
  end.

(** ** Funds transfer (api.py, lines 742-801) *)

(** How the body names an account: [*_account_no] when it is set,
    otherwise [*_account_id] when it is set. *)
Inductive AccountRef :=
| RefNone
| RefNo (no : string)
| RefId (id : Z)
| RefBadId.              (* [int(...)] raises *)

Record TransferRequest := mkTransfer {
  tr_from : AccountRef;
  tr_to : AccountRef;
  tr_amount : RawAmount;
  tr_pin : string }.

Inductive TransferError :=
| NoAccountFound                      (* 409, [_require_any_account] *)
| InvalidAccounts                     (* 400 *)
| SameAccount                         (* 400 *)
| AccountsNotActive                   (* 400 *)
| NotAllowed                          (* 403 *)
| InvalidAmount                       (* 400 *)
| AmountNotPositive                   (* 400 *)
| PinFormat                           (* 400 *)
| PinInvalid                          (* 403 *)
| InsufficientFunds (balance : Z).    (* 400 *)

Inductive TransferResponse :=
| TransferOk (tr_transaction_id from_account_id to_account_id amt new_balance : Z)
| TransferFail (e : TransferError).

Record TransferPlan := mkPlan {
  tp_from : Account;
  tp_to : Account;
  tp_amount : Z }.

(** Lines 749-760. *)
Definition resolve_account (s : Store) (r : AccountRef) : option Account :=
  match r with
  | RefNo no => account_by_no s no
  | RefId id => get_account s id
  | RefNone | RefBadId => None
  end.

(** [str.isdigit] on ASCII text, and the test of line 776. *)
Definition is_digit (c : ascii) : bool :=
  let n := nat_of_ascii c in ((48 <=? n) && (n <=? 57))%nat.

Fixpoint all_digits (s : string) : bool :=
  match s with
  | EmptyString => true
  | String c s' => is_digit c && all_digits s'
  end.

Definition isdigit (s : string) : bool :=
  match s with EmptyString => false | _ => all_digits s end.

Definition pin_format_ok (pin : string) : bool :=
  isdigit pin && ((String.length pin =? 4) || (String.length pin =? 6))%nat.

Definition is_active (a : Account) : bool := AccountStatus_eqb (acc_status a) ACTIVE.

Definition owns (s : Store) (ctx : Ctx) (a : Account) : bool :=
  match _get_customer s ctx with
  | Some cust => acc_customer_id a =? cust_id cust
  | None => false
  end.

Section Transfer.

(** [bcrypt.verify(pin, pin_hash)] *)
Variable bcrypt_verify : string -> string -> bool.

(** Lines 778-779: [not ib or not bcrypt.verify(pin, ib.pin_hash)] is false. *)
Definition pin_accepted (s : Store) (a : Account) (pin : string) : bool :=
  match find (fun i => ib_account_id i =? acc_id a) (internet_banking s) with
  | Some ib => bcrypt_verify pin (pin_hash ib)
  | None => false
  end.

(** Lines 746-787: every statement before the first write. *)
Definition transfer_checks (s : Store) (ctx : Ctx) (r : TransferRequest)
  : TransferError + TransferPlan :=
  if negb (_has_any_account s ctx false) then inl NoAccountFound else
  match resolve_account s (tr_from r), resolve_account s (tr_to r) with
  | Some from_acc, Some to_acc =>
      if acc_id from_acc =? acc_id to_acc then inl SameAccount else
      if negb (is_active from_acc) || negb (is_active to_acc) then inl AccountsNotActive else
      if negb (owns s ctx from_acc) then inl NotAllowed else
      match decimal_of_get_default0 (tr_amount r) with
      | None => inl InvalidAmount
      | Some amt =>
          if amt <=? 0 then inl AmountNotPositive else
          if negb (pin_format_ok (tr_pin r)) then inl PinFormat else
          if negb (pin_accepted s from_acc (tr_pin r)) then inl PinInvalid else
          let bal := ledger_balance s (acc_id from_acc) in
          if bal <? amt then inl (InsufficientFunds bal)
          else inr (mkPlan from_acc to_acc amt)
      end
  | _, _ => inl InvalidAccounts
  end.

(** Lines 788-801. *)
Definition transfer_post (s : Store) (ctx : Ctx) (p : TransferPlan)
  : Store * TransferResponse :=
  let '(tx, s') := post_entries s ctx TRANSFER (Some (acc_id (tp_from p))) None
                                (Some (acc_id (tp_to p))) None (tp_amount p) in
  (s', TransferOk (tx_id tx) (acc_id (tp_from p)) (acc_id (tp_to p)) (tp_amount p)
                  (ledger_balance s' (acc_id (tp_from p)))).

Definition ib_transfer (s : Store) (ctx : Ctx) (r : TransferRequest)
  : Store * TransferResponse :=
  match transfer_checks s ctx r with
  | inl e => (s, TransferFail e)
  | inr p => transfer_post s ctx p
  end.

(** *** Two requests in flight

    The handler holds no lock and opens no serialising transaction: a
    request first runs its reads (lines 746-787) and later its writes
    (lines 788-792), and the statements of another request can run in
    between.  A worker is a request at one of these points. *)
Inductive Worker :=
| Received (ctx : Ctx) (r : TransferRequest)
| Checked (ctx : Ctx) (p : TransferPlan)
| Responded (resp : TransferResponse).

Definition worker_step (s : Store) (w : Worker) : Store * Worker :=
  match w with
  | Received ctx r =>
      match transfer_checks s ctx r with
      | inl e => (s, Responded (TransferFail e))
      | inr p => (s, Checked ctx p)
      end
  | Checked ctx p =>
      let '(s', resp) := transfer_post s ctx p in (s', Responded resp)
  | Responded _ => (s, w)
  end.

(** A schedule names, step by step, which of the two workers runs. *)
Inductive Turn := First | Second.

Fixpoint interleave (sched : list Turn) (s : Store) (w1 w2 : Worker)
  : Store * Worker * Worker :=
  match sched with
  | [] => (s, w1, w2)
  | First :: rest => let '(s', w1') := worker_step s w1 in interleave rest s' w1' w2
  | Second :: rest => let '(s', w2') := worker_step s w2 in interleave rest s' w1 w2'
  end.

(** *** Sequences of posting requests *)
Inductive Op :=
| OpApprove (req_id : Z) (init_raw : RawAmount)
| OpPostDeposit (account_id : option Z) (amount_raw : RawAmount)
| OpAcceptDeposit (acc_no : string) (amount_raw : RawAmount)
| OpTransfer (r : TransferRequest)
| OpDisburse (loan_app_id : Z) (r : DisburseRequest).

Definition exec (s : Store) (c : Ctx * Op) : Store :=
  let ctx := fst c in
  match snd c with
  | OpApprove req_id init_raw => fst (ops_approve_request s ctx req_id init_raw)
  | OpPostDeposit account_id amount_raw => fst (ops_post_deposit s ctx account_id amount_raw)
  | OpAcceptDeposit acc_no amount_raw => fst (ops_accept_cash_deposit s ctx acc_no amount_raw)
  | OpTransfer r => fst (ib_transfer s ctx r)
  | OpDisburse loan_app_id r => fst (ops_loan_disburse s ctx loan_app_id r)
  end.

(** The stores after each request of a sequence, in order. *)
Fixpoint trace (s : Store) (reqs : list (Ctx * Op)) : list Store :=
  match reqs with
  | [] => []
  | c :: rest => exec s c :: trace (exec s c) rest
  end.

(** The account numbers that the approvals of a sequence hand out for
    requests of one branch. *)
Definition issued_here (s : Store) (branch_id : Z) (c : Ctx * Op) : list string :=
  match snd c with
  | OpApprove req_id init_raw =>
      match ops_approve_request s (fst c) req_id init_raw, get_request s req_id with
      | (_, ApproveOk _ no _ _), Some ar =>
          if ar_branch_id ar =? branch_id then [no] else []
      | _, _ => []
      end
  | _ => []
  end.

Fixpoint issued (s : Store) (branch_id : Z) (reqs : list (Ctx * Op)) : list string :=
  match reqs with
  | [] => []
  | c :: rest => issued_here s branch_id c ++ issued (exec s c) branch_id rest
  end.

End Transfer.

(** ** Declining an account request (api.py, lines 461-479) *)

Inductive DeclineError :=
| DecEmployeeRoleRequired
| DecRemarkRequired
| DecRequestNotFound
| DecRequestAlready (st : RequestStatus).

Inductive DeclineResponse :=
| DeclineOk (status : RequestStatus)
| DeclineFail (e : DeclineError).

(** [remark] is the stripped text; [AccountRequest] has no [remark]
    column, so the [hasattr] branch of line 476 is not taken. *)
Definition ops_decline_request (s : Store) (ctx : Ctx) (req_id : Z) (remark : string)
  : Store * DeclineResponse :=
  if negb (is_staff s ctx) then (s, DeclineFail DecEmployeeRoleRequired) else
  if String.eqb remark "" then (s, DeclineFail DecRemarkRequired) else
  match get_request s req_id with
  | None => (s, DeclineFail DecRequestNotFound)
  | Some ar =>
      if negb (RequestStatus_eqb (ar_status ar) PENDING)
      then (s, DeclineFail (DecRequestAlready (ar_status ar)))
      else (set_account_requests s
              (set_request_status (ar_id ar) REJECTED (account_requests s)),
            DeclineOk REJECTED)
  end.

(** ** Account presence (api.py, lines 91-106 and 148-153) *)

Definition created_first (a b : Account) : bool := acc_created_at a <=? acc_created_at b.

(** [_first_account_for_user]: the customer's accounts by [created_at]
    ascending; accounts created at the same time stay in table order. *)
Definition _first_account_for_user (s : Store) (ctx : Ctx) (active_only : bool)
  : option Account :=
  match _get_customer s ctx with
  | None => None
  | Some cust =>
      hd_error
        (order_by created_first
           (filter (fun a => (acc_customer_id a =? cust_id cust)
                             && (negb active_only || AccountStatus_eqb (acc_status a) ACTIVE))
                   (rows (accounts s))))
  end.

(** [(has_account, has_active_account)] *)
Definition me_account_presence (s : Store) (ctx : Ctx) : bool * bool :=
  (match _first_account_for_user s ctx false with Some _ => true | None => false end,
   match _first_account_for_user s ctx true with Some _ => true | None => false end).

(** ** Internet banking PIN (api.py, lines 642-737)

    The [pin_hint] column is written by these handlers and read only by
    [ib_status]; it is not kept. *)









Section Pins.

(** [bcrypt.hash] with the salt it draws, and [bcrypt.verify]. *)
Variable bcrypt_hash : string -> string -> string.
Variable bcrypt_verify : string -> string -> bool.




End Pins.

(** ** Loan approval and decline (api.py, lines 1016-1087)

    [Loan] rows are kept in a table beside the store;
    [LoanApplicationDetail] and [LoanAppHistory] are written and never read
    by these handlers or by the disbursal, and are not kept. *)

Inductive LoanStatus := LOAN_ACTIVE | LOAN_CLOSED | LOAN_DEFAULT.

(** The default [start_date] is the day of the insert and is not kept. *)
Record Loan := mkLoan {
  loan_id : Z;
  loan_customer_id : Z;
  principal : Z;
  loan_rate_pa : Z;
  term_months : Z;
  loan_status : LoanStatus }.

Definition set_loan_applications (s : Store) (l : list LoanApplication) : Store :=
  mkStore (roles s) (user_roles s) (customers s) (branches s) (account_number_seq s)
          (account_requests s) (accounts s) (internet_banking s)
          (transactions s) (ledger_entries s) l.

Definition set_loan_status (id : Z) (st : RequestStatus) (l : list LoanApplication)
  : list LoanApplication :=
  map (fun a => if la_id a =? id
                then mkLoanApp (la_id a) (la_customer_id a) (la_amount a) st
                else a) l.

Definition get_loan_application (s : Store) (id : Z) : option LoanApplication :=
  find (fun a => la_id a =? id) (loan_applications s).

Inductive LoanError :=
| LoanForbidden              (* [abort(403)] *)
| LoanBadNumber              (* the unguarded [Decimal(...)] or [int(...)] raises: 500 *)
| LoanRemarkRequired
| LoanNotFound
| LoanAlready (st : RequestStatus).

Inductive LoanResponse :=
| LoanApproved (app_id new_loan_id : Z) (status : RequestStatus)
| LoanDeclined (app_id : Z) (status : RequestStatus)
| LoanFail (e : LoanError).

(** [Decimal(str(data.get("rate_pa") or "10.0"))], in hundredths, and
    [int(data.get("term_months") or 12)]. *)
Definition loan_rate (raw : RawAmount) : option Z :=
  match raw with
  | RawMissing | RawNull | RawEmpty | RawZero => Some 1000
  | RawText p => p
  end.

Definition loan_term (raw : RawAmount) : option Z :=
  match raw with
  | RawMissing | RawNull | RawEmpty | RawZero => Some 12
  | RawText p => p
  end.

Definition ops_loan_approve (s : Store) (loans : Table Loan) (ctx : Ctx) (loan_app_id : Z)
           (rate_raw term_raw : RawAmount) : Store * Table Loan * LoanResponse :=
  if negb (is_staff s ctx) then (s, loans, LoanFail LoanForbidden) else
  match loan_rate rate_raw, loan_term term_raw with
  | Some rate, Some term =>
      match get_loan_application s loan_app_id with
      | None => (s, loans, LoanFail LoanNotFound)
      | Some app =>
          if negb (RequestStatus_eqb (la_status app) PENDING)
          then (s, loans, LoanFail (LoanAlready (la_status app)))
          else
            let '(loan, loans') :=
              db_add (fun id => mkLoan id (la_customer_id app) (la_amount app) rate term
                                      LOAN_ACTIVE)
                     loans in
            (set_loan_applications s
               (set_loan_status (la_id app) APPROVED (loan_applications s)),
             loans',
             LoanApproved (la_id app) (loan_id loan) APPROVED)
      end
  | _, _ => (s, loans, LoanFail LoanBadNumber)
  end.

Definition ops_loan_decline (s : Store) (ctx : Ctx) (loan_app_id : Z) (remark : string)
  : Store * LoanResponse :=
  if negb (is_staff s ctx) then (s, LoanFail LoanForbidden) else
  if String.eqb remark "" then (s, LoanFail LoanRemarkRequired) else
  match get_loan_application s loan_app_id with
  | None => (s, LoanFail LoanNotFound)
  | Some app =>
      if negb (RequestStatus_eqb (la_status app) PENDING)
      then (s, LoanFail (LoanAlready (la_status app)))
      else (set_loan_applications s
              (set_loan_status (la_id app) REJECTED (loan_applications s)),
            LoanDeclined (la_id app) REJECTED)
  end.

(** ** Upload file names (api.py, lines 56-59) *)

Definition ALLOWED_EXTENSIONS : list string := ["png"; "jpg"; "jpeg"; "webp"; "pdf"]%string.

Definition lower_ascii (c : ascii) : ascii :=
  let n := nat_of_ascii c in
  if ((65 <=? n) && (n <=? 90))%nat then ascii_of_nat (n + 32) else c.

Fixpoint lower (s : string) : string :=
  match s with
  | EmptyString => EmptyString
  | String c s' => String (lower_ascii c) (lower s')
  end.

(** [filename.rsplit(".", 1)[1]] when ["." in filename]. *)
Fixpoint after_last_dot (s : string) : option string :=
  match s with
  | EmptyString => None
  | String c s' =>
      match after_last_dot s' with
      | Some ext => Some ext
      | None => if Ascii.eqb c "." then Some s' else None
      end
  end.

(** ["." in filename] *)
Fixpoint contains_dot (s : string) : bool :=
  match s with
  | EmptyString => false
  | String c s' => Ascii.eqb c "." || contains_dot s'
  end.

Definition _allowed_file (filename : string) : bool :=
  match after_last_dot filename with
  | Some ext => existsb (String.eqb (lower ext)) ALLOWED_EXTENSIONS
  | None => false
  end.

(** ** Specification-side definitions *)

(** *** Double entry: debits and credits of one transaction *)
Definition tx_side_total (s : Store) (tid : Z) (side : string) : Z :=
  sum_amount (filter (fun e => (transaction_id e =? tid) && String.eqb (dr_cr e) side)
                     (rows (ledger_entries s))).

Definition double_entry (s : Store) : Prop :=
  forall tid, tx_side_total s tid "DR" = tx_side_total s tid "CR".







(** *** The serial that the next approval in a branch uses (lines 430-435) *)
Definition START_SERIAL : Z := 1000000001.

Definition current_serial (s : Store) (branch_id : Z) : Z :=
  match seq_for_branch s branch_id with
  | Some q => next_serial q
  | None => START_SERIAL
  end.

(** The primary key of [account_number_seq]: keys are distinct and below
    the auto-increment counter. *)
Definition seq_keys_ok (s : Store) : Prop :=
  NoDup (map seq_id (rows (account_number_seq s)))
  /\ Forall (fun q => seq_id q < next_id (account_number_seq s))
            (rows (account_number_seq s)).

(** The store after the last request of a sequence. *)
Definition final (verify : string -> string -> bool) (s : Store) (reqs : list (Ctx * Op))
  : Store :=
  fold_left (exec verify) reqs s.

(** The account number made of a branch code and a serial (line 437). *)
Definition numbered (br : Branch) (serial : Z) : string :=
  (br_code br ++ str_of_int serial)%string.

(** The request row after approval. *)
Definition approved (ar : AccountRequest) : AccountRequest :=
  mkRequest (ar_id ar) (ar_customer_id ar) (ar_branch_id ar) (ar_product ar) APPROVED.

(** What a request other than an approval can do to the store. *)
Definition posting_only (s s' : Store) : Prop :=
  s' = s
  \/ exists ctx ty da dg ca cg amt, s' = snd (post_entries s ctx ty da dg ca cg amt).

(** One request either leaves the row of a branch alone and hands out no
    number for it, or hands out the number of its current serial and
    leaves a row that holds the next one. *)
Definition serial_step (s s' : Store) (b : Z) (br : Branch) (out : list string) : Prop :=
  (out = [] /\ seq_for_branch s' b = seq_for_branch s b)
  \/ (out = [numbered br (current_serial s b)]
      /\ exists q, seq_for_branch s' b = Some q /\ next_serial q = current_serial s b + 1).

(** *** Order of a history page *)

(** Posting time descending, ties broken by entry id descending; an entry
    without posting time comes after every entry that has one. *)
Definition listed_before (a b : LedgerEntry) : Prop :=
  match posted_at a, posted_at b with
  | Some x, Some y => y < x \/ (x = y /\ le_id b <= le_id a)
  | Some _, None => True
  | None, Some _ => False
  | None, None => le_id b <= le_id a
  end.

(** The parsed cursor. *)
Definition cursor_of (b : BeforeArg) : option Z :=
  match b with BeforeAt t => Some t | BeforeAbsent | BeforeInvalid => None end.


(** *** Invariants of the books *)



(** Primary keys: distinct and below the auto-increment counter. *)
Definition keys_ok {A : Type} (key : A -> Z) (t : Table A) : Prop :=
  NoDup (map key (rows t)) /\ Forall (fun r => key r < next_id t) (rows t).

(** Foreign keys of an entry: its transaction, and its account if any. *)
Definition entry_refs_ok (s : Store) (e : LedgerEntry) : Prop :=
  (exists t, In t (rows (transactions s)) /\ tx_id t = transaction_id e)
  /\ (forall a, account_id e = Some a ->
                exists acc, In acc (rows (accounts s)) /\ acc_id acc = a).

Definition references_ok (s : Store) : Prop :=
  keys_ok tx_id (transactions s)
  /\ keys_ok le_id (ledger_entries s)
  /\ keys_ok acc_id (accounts s)
  /\ Forall (entry_refs_ok s) (rows (ledger_entries s)).

(** No account is overdrawn. *)
Definition solvent (s : Store) : Prop := forall id, 0 <= ledger_balance s id.

Definition extends {A : Type} (old new : list A) : Prop := exists extra, new = old ++ extra.


(** The three tables that make the books. *)
Definition same_books (s s' : Store) : Prop :=
  accounts s' = accounts s
  /\ transactions s' = transactions s
  /\ ledger_entries s' = ledger_entries s.

(** The two shapes of a posting: a general-ledger code funds an existing
    account, or an existing account with enough funds pays another. *)
Inductive posted (s : Store) : Store -> Prop :=
| posted_credit (ctx : Ctx) (ty : TxType) (g : string) (acc : Account) (amt : Z) :
    0 < amt ->
    In acc (rows (accounts s)) ->
    posted s (snd (post_entries s ctx ty None (Some g) (Some (acc_id acc)) None amt))
| posted_transfer (ctx : Ctx) (f t : Account) (amt : Z) :
    0 < amt ->
    amt <= ledger_balance s (acc_id f) ->
    In f (rows (accounts s)) ->
    In t (rows (accounts s)) ->
    posted s (snd (post_entries s ctx TRANSFER (Some (acc_id f)) None
                                (Some (acc_id t)) None amt)).

(** One account row added under the next key, the rest of the books
    untouched. *)
Definition account_added (s s' : Store) : Prop :=
  (exists acc, acc_id acc = next_id (accounts s)
               /\ acc_status acc = ACTIVE
               /\ accounts s' = mkTable (rows (accounts s) ++ [acc]) (next_id (accounts s) + 1))
  /\ transactions s' = transactions s
  /\ ledger_entries s' = ledger_entries s.

(** What one request does to the books. *)
Inductive books_step (s s' : Store) : Prop :=
| step_none : same_books s s' -> books_step s s'
| step_posted : posted s s' -> books_step s s'
| step_opened (s2 s3 : Store) :
    account_added s s2 -> (s3 = s2 \/ posted s2 s3) -> same_books s3 s' -> books_step s s'.

(** ** A small bank, for the examples

    One employee (user 1), two customers (users 10 and 20, with an
    account each) and a user 30 with a customer profile and no account;
    PINs are compared in clear text here. *)
Definition plain_verify (pin hash : string) : bool := String.eqb pin hash.

Definition seed : Store :=
  mkStore [mkRole 1 "CUSTOMER"; mkRole 2 "EMPLOYEE"; mkRole 3 "ADMIN"]
          [mkUserRole 1 2]
          [mkCustomer 1 10; mkCustomer 2 20; mkCustomer 3 30]
          [mkBranch 1 "B001"; mkBranch 2 "B002"]
          (mkTable [] 1)
          [mkRequest 1 1 1 "SAVINGS" PENDING; mkRequest 2 2 1 "SAVINGS" PENDING;
           mkRequest 3 3 2 "CURRENT" PENDING]
          (mkTable [] 1)
          []
          (mkTable [] 1)
          (mkTable [] 1)
          [mkLoanApp 1 2 250000 APPROVED].

Definition teller (t : Z) : Ctx := mkCtx 1 t.
Definition alice (t : Z) : Ctx := mkCtx 10 t.
Definition carol (t : Z) : Ctx := mkCtx 30 t.

(** Alice opens with 800.00, Bob with nothing; Alice sets PIN 1234. *)
Definition opened : Store :=
  let s1 := fst (ops_approve_request seed (teller 100) 1 (RawText (Some 80000))) in
  let s2 := fst (ops_approve_request s1 (teller 101) 2 RawMissing) in
  mkStore (roles s2) (user_roles s2) (customers s2) (branches s2) (account_number_seq s2)
          (account_requests s2) (accounts s2) [mkIB 1 "1234"]
          (transactions s2) (ledger_entries s2) (loan_applications s2).

Definition pay (from to : string) (amt : Z) (pin : string) : TransferRequest :=
  mkTransfer (RefNo from) (RefNo to) (RawText (Some amt)) pin.

Definition alice_no : string := "B0011000000001".
Definition bob_no : string := "B0011000000002".
Definition alice_account : Account := mkAccount 1 1 1 alice_no "SAVINGS" ACTIVE 100.

(** Then Alice pays Bob 300.00, a teller accepts 50.00 for Alice within the
    same second, and Alice pays Bob another 100.00. *)
Definition busy : Store :=
  let s1 := fst (ib_transfer plain_verify opened (alice 200) (pay alice_no bob_no 30000 "1234")) in
  let s2 := fst (ops_accept_cash_deposit s1 (teller 200) alice_no (RawText (Some 5000))) in
  fst (ib_transfer plain_verify s2 (alice 300) (pay alice_no bob_no 10000 "1234")).


(** * Properties *)

(** ** Lists, sums and [ORDER BY] *)

Lemma sum_amount_app (a b : list LedgerEntry) :
  sum_amount (a ++ b) = sum_amount a + sum_amount b.
Proof.
  induction a as [|e a IH]; simpl; [reflexivity|].
  rewrite IH. lia.
Qed.

Lemma insert_by_perm {A : Type} (leb : A -> A -> bool) (x : A) (l : list A) :
  Permutation (x :: l) (insert_by leb x l).
Proof.
  induction l as [|y l IH]; simpl.
  - apply Permutation_refl.
  - destruct (leb x y).
    + apply Permutation_refl.
    + eapply perm_trans; [apply perm_swap|]. apply perm_skip, IH.
Qed.

Lemma order_by_perm {A : Type} (leb : A -> A -> bool) (l : list A) :
  Permutation l (order_by leb l).
Proof.
  induction l as [|x l IH]; simpl.
  - apply perm_nil.
  - eapply perm_trans; [apply perm_skip, IH|]. apply insert_by_perm.
Qed.

Lemma order_by_In {A : Type} (leb : A -> A -> bool) (l : list A) (x : A) :
  In x (order_by leb l) <-> In x l.
Proof.
  split; intro H.
  - eapply Permutation_in; [apply Permutation_sym, order_by_perm|exact H].
  - eapply Permutation_in; [apply order_by_perm|exact H].
Qed.

Section OrderBy.

Context {A : Type} (leb : A -> A -> bool).
Hypothesis leb_total : forall x y, leb x y = true \/ leb y x = true.
Hypothesis leb_trans : forall x y z, leb x y = true -> leb y z = true -> leb x z = true.

Let R (x y : A) : Prop := leb x y = true.

Lemma insert_by_sorted (x : A) (l : list A) :
  StronglySorted R l -> StronglySorted R (insert_by leb x l).
Proof.
  induction l as [|y l IH]; simpl; intro Hs.
  - constructor; [constructor|constructor].
  - inversion Hs as [|? ? Hl Hy]; subst.
    destruct (leb x y) eqn:E.
    + constructor; [exact Hs|].
      constructor; [exact E|].
      rewrite Forall_forall in Hy |- *. intros z Hz.
      eapply leb_trans; [exact E|]. apply Hy, Hz.
    + constructor; [apply IH, Hl|].
      rewrite Forall_forall in Hy |- *. intros z Hz.
      apply (Permutation_in z (Permutation_sym (insert_by_perm leb x l))) in Hz.
      destruct Hz as [<-|Hz].
      * destruct (leb_total x y) as [H|H]; [congruence|exact H].
      * apply Hy, Hz.
Qed.

Lemma order_by_sorted (l : list A) : StronglySorted R (order_by leb l).
Proof.
  induction l as [|x l IH]; simpl.
  - constructor.
  - apply insert_by_sorted, IH.
Qed.

End OrderBy.

Lemma In_firstn {A : Type} (n : nat) (l : list A) (x : A) :
  In x (firstn n l) -> In x l.
Proof.
  intro H. rewrite <- (firstn_skipn n l). apply in_or_app. left. exact H.
Qed.

Lemma StronglySorted_firstn {A : Type} (R : A -> A -> Prop) (n : nat) (l : list A) :
  StronglySorted R l -> StronglySorted R (firstn n l).
Proof.
  revert n. induction l as [|x l IH]; intros n Hs.
  - rewrite firstn_nil. constructor.
  - destruct n as [|n]; simpl; [constructor|].
    inversion Hs as [|? ? Hl Hx]; subst.
    constructor; [apply IH, Hl|].
    rewrite Forall_forall in Hx |- *. intros y Hy.
    apply Hx. apply (In_firstn n l y Hy).
Qed.

(** ** Balance derivation *)





(** ** Double entry *)

Lemma tx_side_total_app (s : Store) (extra : list LedgerEntry) (n tid : Z) (side : string) :
  tx_side_total (set_ledger_entries s (mkTable (rows (ledger_entries s) ++ extra) n)) tid side
  = tx_side_total s tid side
    + sum_amount (filter (fun e => (transaction_id e =? tid) && String.eqb (dr_cr e) side) extra).
Proof.
  unfold tx_side_total. simpl. rewrite filter_app, sum_amount_app. reflexivity.
Qed.

Lemma post_entries_ledger (s : Store) (ctx : Ctx) (ty : TxType)
      (da : option Z) (dg : option string) (ca : option Z) (cg : option string) (amt : Z) :
  rows (ledger_entries (snd (post_entries s ctx ty da dg ca cg amt)))
  = rows (ledger_entries s)
    ++ [mkEntry (next_id (ledger_entries s)) (next_id (transactions s)) da dg "DR" amt
                (Some (now ctx));
        mkEntry (next_id (ledger_entries s) + 1) (next_id (transactions s)) ca cg "CR" amt
                (Some (now ctx))].
Proof.
  unfold post_entries, db_add. simpl. rewrite <- app_assoc. reflexivity.
Qed.

Lemma double_entry_ext (s s' : Store) :
  rows (ledger_entries s') = rows (ledger_entries s) -> double_entry s -> double_entry s'.
Proof.
  intros E H tid. unfold tx_side_total. rewrite E. apply H.
Qed.

Lemma post_entries_double_entry (s : Store) (ctx : Ctx) (ty : TxType)
      (da : option Z) (dg : option string) (ca : option Z) (cg : option string) (amt : Z) :
  double_entry s -> double_entry (snd (post_entries s ctx ty da dg ca cg amt)).
Proof.
  intros H tid. unfold tx_side_total.
  rewrite post_entries_ledger, !filter_app, !sum_amount_app.
  fold (tx_side_total s tid "DR"). fold (tx_side_total s tid "CR").
  rewrite (H tid). simpl.
  destruct (next_id (transactions s) =? tid); simpl; lia.
Qed.

Lemma approve_double_entry (s : Store) (ctx : Ctx) (req_id : Z) (init_raw : RawAmount) :
  double_entry s -> double_entry (fst (ops_approve_request s ctx req_id init_raw)).
Proof.
  intro H. unfold ops_approve_request.
  destruct (negb (is_staff s ctx)); [exact H|].
  destruct (approve_initial_deposit init_raw) as [e|init_amt]; [exact H|].
  destruct (get_request s req_id) as [ar|]; [|exact H].
  destruct (negb (RequestStatus_eqb (ar_status ar) PENDING)); [exact H|].
  destruct (get_branch s (ar_branch_id ar)) as [br|]; [|exact H].
  unfold take_serial.
  destruct (match seq_for_branch s (br_id br) with
            | Some q => (q, account_number_seq s)
            | None => db_add (fun id => mkSeq id (br_id br) 1000000001) (account_number_seq s)
            end) as [seq t].
  unfold db_add. cbv zeta. cbn [fst snd].
  destruct (0 <? init_amt).
  - eapply double_entry_ext; [|apply post_entries_double_entry].
    + reflexivity.
    + eapply double_entry_ext; [|exact H]. reflexivity.
  - eapply double_entry_ext; [|exact H]. reflexivity.
Qed.

Lemma deposit_into_double_entry (s : Store) (ctx : Ctx) (found : option Account) (amt : Z) :
  double_entry s -> double_entry (fst (deposit_into s ctx found amt)).
Proof.
  intro H. unfold deposit_into.
  destruct found as [acc|]; [|exact H].
  destruct (negb (AccountStatus_eqb (acc_status acc) ACTIVE)); [exact H|].
  pose proof (post_entries_double_entry s ctx DEPOSIT None (Some GL_CASH_VAULT)
                (Some (acc_id acc)) None amt H) as P.
  destruct (post_entries s ctx DEPOSIT None (Some GL_CASH_VAULT) (Some (acc_id acc)) None amt).
  exact P.
Qed.

Lemma exec_double_entry (verify : string -> string -> bool) (s : Store) (c : Ctx * Op) :
  double_entry s -> double_entry (exec verify s c).
Proof.
  intro H. destruct c as [ctx op]. unfold exec. cbn [fst snd].
  destruct op as [req_id init_raw|account_id amount_raw|acc_no amount_raw|r|loan_app_id r].
  - apply approve_double_entry, H.
  - unfold ops_post_deposit.
    destruct (negb (is_staff s ctx)); [exact H|].
    destruct (decimal_of_get amount_raw) as [amt|]; [|exact H].
    destruct (amt <=? 0); [exact H|].
    apply deposit_into_double_entry, H.
  - unfold ops_accept_cash_deposit.
    destruct (negb (is_staff s ctx)); [exact H|].
    destruct (decimal_of_get_default0 amount_raw) as [amt|]; [|exact H].
    destruct (amt <=? 0); [exact H|].
    destruct (String.eqb acc_no ""); [exact H|].
    apply deposit_into_double_entry, H.
  - unfold ib_transfer.
    destruct (transfer_checks verify s ctx r) as [e|p]; [exact H|].
    unfold transfer_post.
    pose proof (post_entries_double_entry s ctx TRANSFER (Some (acc_id (tp_from p))) None
                  (Some (acc_id (tp_to p))) None (tp_amount p) H) as P.
    destruct (post_entries s ctx TRANSFER (Some (acc_id (tp_from p))) None
                           (Some (acc_id (tp_to p))) None (tp_amount p)).
    exact P.
  - unfold ops_loan_disburse.
    destruct (negb (is_staff s ctx)); [exact H|].
    destruct (negb (dr_rate_valid r)); [exact H|].
    destruct (negb (dr_term_valid r)); [exact H|].
    destruct (find _ (loan_applications s)) as [app|]; [|exact H].
    destruct (negb (RequestStatus_eqb (la_status app) APPROVED)); [exact H|].
    destruct (account_by_no s (dr_account_no r)) as [acc|]; [|exact H].
    destruct (negb (AccountStatus_eqb (acc_status acc) ACTIVE)); [exact H|].
    destruct (disburse_amount (dr_amount r) app) as [amt|]; [|exact H].
    destruct (amt <=? 0); [exact H|].
    pose proof (post_entries_double_entry s ctx LOAN_DISBURSAL None (Some GL_BANK_LOAN)
                  (Some (acc_id acc)) None amt H) as P.
    destruct (post_entries s ctx LOAN_DISBURSAL None (Some GL_BANK_LOAN)
                           (Some (acc_id acc)) None amt).
    exact P.
Qed.

(** C1.  Starting from books in which the DR amounts of every transaction
    sum to its CR amounts, the same holds in the store committed by each
    request of any sequence of cash deposits, teller deposits, approvals
    (with or without initial deposit), transfers and loan disbursals. *)
Theorem double_entry_after_every_post
        (verify : string -> string -> bool) (s : Store) (reqs : list (Ctx * Op)) :
  double_entry s -> Forall double_entry (trace verify s reqs).
Proof.
  revert s. induction reqs as [|c reqs IH]; intros s H; simpl.
  - constructor.
  - pose proof (exec_double_entry verify s c H) as H'.
    constructor; [exact H'|apply IH, H'].
Qed.

Lemma double_entry_after_every_post_witness :
  double_entry seed
  /\ Forall double_entry
       (trace plain_verify seed
              [(teller 100, OpApprove 1 (RawText (Some 80000)));
               (teller 101, OpApprove 2 RawMissing);
               (teller 102, OpPostDeposit (Some 2) (RawText (Some 100000)));
               (teller 103, OpDisburse 1 (mkDisburse "B0011000000002" RawMissing true true))]).
Proof.
  assert (H : double_entry seed) by (intro tid; reflexivity).
  split; [exact H|].
  exact (double_entry_after_every_post plain_verify seed _ H).
Defined.

(** ** Transaction history *)

Lemma newest_first_spec (a b : LedgerEntry) :
  newest_first a b = true <-> listed_before a b.
Proof.
  unfold newest_first, listed_before, ts_ltb, ts_eqb.
  destruct (posted_at a) as [x|], (posted_at b) as [y|]; simpl;
    rewrite ?orb_true_iff, ?andb_true_iff, ?Z.ltb_lt, ?Z.eqb_eq, ?Z.leb_le;
    try tauto; try (intuition (try discriminate; try lia)).
Qed.

Lemma listed_before_total (a b : LedgerEntry) : listed_before a b \/ listed_before b a.
Proof.
  unfold listed_before.
  destruct (posted_at a) as [x|], (posted_at b) as [y|]; try tauto; lia.
Qed.

Lemma listed_before_trans (a b c : LedgerEntry) :
  listed_before a b -> listed_before b c -> listed_before a c.
Proof.
  unfold listed_before.
  destruct (posted_at a) as [x|], (posted_at b) as [y|], (posted_at c) as [z|];
    try tauto; lia.
Qed.

Lemma row_newest_first_total (x y : LedgerEntry * Transaction) :
  row_newest_first x y = true \/ row_newest_first y x = true.
Proof.
  unfold row_newest_first. rewrite !newest_first_spec. apply listed_before_total.
Qed.

Lemma row_newest_first_trans (x y z : LedgerEntry * Transaction) :
  row_newest_first x y = true -> row_newest_first y z = true -> row_newest_first x z = true.
Proof.
  unfold row_newest_first. rewrite !newest_first_spec. apply listed_before_trans.
Qed.

Lemma page_limit_range (l : LimitArg) : 1 <= page_limit l <= 100.
Proof. unfold page_limit. destruct l; lia. Qed.

Lemma In_joined (s : Store) (es : list LedgerEntry) (e : LedgerEntry) (t : Transaction) :
  In (e, t) (joined s es)
  <-> In e es /\ find (fun t => tx_id t =? transaction_id e) (rows (transactions s)) = Some t.
Proof.
  unfold joined. rewrite in_flat_map. split.
  - intros [e' [Hin H]].
    destruct (find (fun t => tx_id t =? transaction_id e') (rows (transactions s)))
      as [t'|] eqn:E; simpl in H; [|contradiction].
    destruct H as [H|[]]. inversion H; subst. split; [exact Hin|exact E].
  - intros [Hin E]. exists e. split; [exact Hin|]. rewrite E. left. reflexivity.
Qed.

Lemma posted_before_spec (before : option Z) (e : LedgerEntry) :
  posted_before before e = true
  <-> (forall t, before = Some t -> exists p, posted_at e = Some p /\ p < t).
Proof.
  unfold posted_before. destruct before as [b|].
  - destruct (posted_at e) as [p|].
    + rewrite Z.ltb_lt. split.
      * intros H t Ht. inversion Ht; subst. exists p. split; [reflexivity|exact H].
      * intro H. destruct (H b eq_refl) as [p' [E Hp]]. inversion E; subst. exact Hp.
    + split; [discriminate|].
      intro H. destruct (H b eq_refl) as [p' [E _]]. discriminate.
  - split; [intros _ t Ht; discriminate|reflexivity].
Qed.

Lemma is_account_spec (id : Z) (o : option Z) : is_account id o = true <-> o = Some id.
Proof.
  unfold is_account. destruct o as [a|].
  - rewrite Z.eqb_eq. split; [intros ->; reflexivity|intro H; inversion H; reflexivity].
  - split; discriminate.
Qed.

Lemma In_history_candidates (s : Store) (id : Z) (before : option Z)
      (e : LedgerEntry) (t : Transaction) :
  In (e, t) (history_candidates s id before)
  <-> In e (rows (ledger_entries s))
      /\ account_id e = Some id
      /\ (forall b, before = Some b -> exists p, posted_at e = Some p /\ p < b)
      /\ find (fun t => tx_id t =? transaction_id e) (rows (transactions s)) = Some t.
Proof.
  unfold history_candidates.
  rewrite In_joined, filter_In, andb_true_iff, is_account_spec, posted_before_spec.
  tauto.
Qed.

Lemma StronglySorted_app_inv {A : Type} (R : A -> A -> Prop) (a b : list A) :
  StronglySorted R (a ++ b) -> forall x y, In x a -> In y b -> R x y.
Proof.
  induction a as [|h a IH]; simpl; intros Hs x y Hx Hy; [contradiction|].
  inversion Hs as [|? ? Hl Hh]; subst.
  destruct Hx as [<-|Hx].
  - rewrite Forall_forall in Hh. apply Hh, in_or_app. right. exact Hy.
  - apply IH; assumption.
Qed.

Lemma firstn_or_beyond {A : Type} (R : A -> A -> Prop) (n : nat) (l : list A) (x : A) :
  StronglySorted R l -> In x l ->
  In x (firstn n l) \/ (List.length (firstn n l) = n /\ forall y, In y (firstn n l) -> R y x).
Proof.
  intros Hs Hx. rewrite <- (firstn_skipn n l) in Hx, Hs.
  apply in_app_or in Hx. destruct Hx as [Hx|Hx]; [left; exact Hx|right].
  split.
  - rewrite length_firstn. apply Nat.min_l.
    destruct (Nat.le_gt_cases n (List.length l)) as [H|H]; [exact H|].
    rewrite skipn_all2 in Hx by lia. contradiction.
  - intros y Hy. eapply StronglySorted_app_inv; eassumption.
Qed.

(** C7.  For an account of the caller and a well-formed cursor, the page
    that [account_transactions] formats
    - has at most [limit] rows, where [limit] is the requested value
      clamped to 1..100 and 20 when absent or unreadable;
    - is ordered by posting time descending, ties by entry id descending;
    - contains only entries of the account, posted strictly before the
      cursor when there is one;
    - is the most recent such entries: an entry of the account that
      satisfies the cursor and is left out is preceded by a full page. *)
Theorem history_page_is_latest_entries
        (s : Store) (ctx : Ctx) (id : Z) (before_raw : BeforeArg) (limit_raw : LimitArg)
        (acc : Account) :
  owned_account s ctx id = Some acc ->
  before_raw <> BeforeInvalid ->
  let limit := page_limit limit_raw in
  let page := history_rows s id (cursor_of before_raw) limit in
  (exists next_before,
      account_transactions s ctx id before_raw limit_raw
      = HistoryOk (map (format_item s acc) page) next_before)
  /\ 1 <= limit <= 100
  /\ (limit_raw = LimitAbsent \/ limit_raw = LimitInvalid -> limit = 20)
  /\ (forall n, limit_raw = LimitInt n ->
                limit = if n <? 1 then 1 else if 100 <? n then 100 else n)
  /\ Z.of_nat (List.length page) <= limit
  /\ StronglySorted (fun x y => listed_before (fst x) (fst y)) page
  /\ (forall e t, In (e, t) page ->
                  In e (rows (ledger_entries s))
                  /\ account_id e = Some id
                  /\ (forall b, before_raw = BeforeAt b ->
                                exists p, posted_at e = Some p /\ p < b))
  /\ (forall e t,
         In e (rows (ledger_entries s)) ->
         account_id e = Some id ->
         (forall b, before_raw = BeforeAt b -> exists p, posted_at e = Some p /\ p < b) ->
         find (fun t => tx_id t =? transaction_id e) (rows (transactions s)) = Some t ->
         In (e, t) page
         \/ (Z.of_nat (List.length page) = limit
             /\ forall r, In r page -> listed_before (fst r) e)).
Proof.
  intros Hown Hcur limit page.
  pose proof (page_limit_range limit_raw) as Hrange. fold limit in Hrange.
  assert (Hsorted : StronglySorted (fun x y => row_newest_first x y = true)
                      (order_by row_newest_first
                                (history_candidates s id (cursor_of before_raw)))).
  { apply order_by_sorted;
      [apply row_newest_first_total|apply row_newest_first_trans]. }
  assert (Hcursor : forall e : LedgerEntry,
             (forall b, cursor_of before_raw = Some b ->
                        exists p, posted_at e = Some p /\ p < b)
             <-> (forall b, before_raw = BeforeAt b ->
                            exists p, posted_at e = Some p /\ p < b)).
  { intro e. destruct before_raw; simpl; split; intros H b Hb;
      try discriminate; try congruence; apply H; congruence. }
  repeat split.
  - unfold account_transactions. rewrite Hown.
    destruct before_raw; [eexists; reflexivity|congruence|eexists; reflexivity].
  - lia.
  - lia.
  - intros [->| ->]; reflexivity.
  - intros n ->. unfold limit, page_limit.
    destruct (Z.ltb_spec n 1), (Z.ltb_spec 100 n); lia.
  - unfold page, history_rows.
    pose proof (firstn_le_length (Z.to_nat limit)
                  (order_by row_newest_first
                            (history_candidates s id (cursor_of before_raw)))).
    lia.
  - unfold page, history_rows. apply StronglySorted_firstn.
    eapply StronglySorted_ind with (P := StronglySorted _); [constructor| |exact Hsorted].
    intros a l _ IH Hall. constructor; [exact IH|].
    eapply Forall_impl; [|exact Hall].
    intros r Hr. apply newest_first_spec. exact Hr.
  - apply In_firstn, order_by_In, In_history_candidates in H. tauto.
  - apply In_firstn, order_by_In, In_history_candidates in H. tauto.
  - apply In_firstn, order_by_In, In_history_candidates in H.
    apply Hcursor. tauto.
  - intros e t Hin Hacc Hb Hfind.
    assert (Hc : In (e, t) (order_by row_newest_first
                                      (history_candidates s id (cursor_of before_raw)))).
    { apply order_by_In, In_history_candidates. rewrite Hcursor. tauto. }
    destruct (firstn_or_beyond _ (Z.to_nat limit) _ _ Hsorted Hc) as [H|[Hlen Hall]].
    + left. exact H.
    + right. split.
      * unfold page, history_rows. rewrite Hlen. lia.
      * intros r Hr. apply newest_first_spec. exact (Hall r Hr).
Qed.

Lemma history_page_is_latest_entries_witness :
  owned_account busy (alice 900) 1 = Some alice_account
  /\ BeforeAt 300 <> BeforeInvalid
  /\ exists next_before,
      account_transactions busy (alice 900) 1 (BeforeAt 300) (LimitInt 2)
      = HistoryOk (map (format_item busy alice_account) (history_rows busy 1 (Some 300) 2))
                  next_before.
Proof.
  assert (Hc : BeforeAt 300 <> BeforeInvalid) by discriminate.
  split; [reflexivity|]. split; [exact Hc|].
  exact (proj1 (history_page_is_latest_entries busy (alice 900) 1 (BeforeAt 300) (LimitInt 2)
                  alice_account eq_refl Hc)).
Defined.

(** *** The cursor of the next page *)

Lemma last_row_map {A B : Type} (f : A -> B) (l : list A) :
  last_row (map f l) = option_map f (last_row l).
Proof.
  induction l as [|x l IH]; simpl; [reflexivity|].
  destruct l as [|y l]; simpl in *; [reflexivity|exact IH].
Qed.

Lemma format_item_posted_at (s : Store) (acc : Account) (r : LedgerEntry * Transaction) :
  it_posted_at (format_item s acc r) = row_time r.
Proof.
  unfold format_item. destruct r as [le tx].
  destruct (_format_counterparty s le) as [[[is_acc cp_label] cp_acc_no] cp_gl].
  destruct (String.eqb (upper (dr_cr le)) "CR"); reflexivity.
Qed.

Lemma next_cursor_of_items (s : Store) (acc : Account) (page : list (LedgerEntry * Transaction)) :
  next_cursor page
  = match last_row (map (format_item s acc) page) with
    | Some it => it_posted_at it
    | None => None
    end.
Proof.
  unfold next_cursor. rewrite last_row_map.
  destruct (last_row page) as [r|]; simpl; [|reflexivity].
  symmetry. apply format_item_posted_at.
Qed.

(** C8, as the claim states it: a page with fewer items than the limit has
    an empty cursor.  Alice's first page has one item under a limit of 20
    and carries the cursor 100. *)
Lemma short_page_has_cursor :
  ~ (forall s ctx id before_raw limit_raw items next_before,
        account_transactions s ctx id before_raw limit_raw = HistoryOk items next_before ->
        Z.of_nat (List.length items) < page_limit limit_raw ->
        next_before = None).
Proof.
  intro H.
  specialize (H opened (alice 300) 1 BeforeAbsent LimitAbsent _ (Some 100) eq_refl).
  simpl in H. specialize (H eq_refl). discriminate.
Qed.

(** C8, amended.  The cursor returned with a page is the timestamp shown on
    its last item, whether the page is full or short; it is empty exactly
    when the page has no item or its last item shows no timestamp. *)
Theorem next_cursor_is_last_item_time
        (s : Store) (ctx : Ctx) (id : Z) (before_raw : BeforeArg) (limit_raw : LimitArg)
        (items : list Item) (next_before : option Z) :
  account_transactions s ctx id before_raw limit_raw = HistoryOk items next_before ->
  next_before = match last_row items with
                | Some it => it_posted_at it
                | None => None
                end.
Proof.
  unfold account_transactions.
  destruct (owned_account s ctx id) as [acc|]; [|discriminate].
  destruct before_raw; intro H; inversion H; subst; try apply next_cursor_of_items.
Qed.

Lemma next_cursor_is_last_item_time_witness :
  exists items,
    account_transactions busy (alice 900) 1 BeforeAbsent (LimitInt 2) = HistoryOk items (Some 200)
    /\ List.length items = 2%nat
    /\ Some 200 = match last_row items with Some it => it_posted_at it | None => None end.
Proof.
  eexists. split; [reflexivity|]. split; [reflexivity|].
  exact (next_cursor_is_last_item_time busy (alice 900) 1 BeforeAbsent (LimitInt 2) _ _ eq_refl).
Defined.

(** *** Counterparty *)









(** ** Transfers *)








Lemma transfer_checks_insufficient (verify : string -> string -> bool)
      (s : Store) (ctx : Ctx) (r : TransferRequest) (bal : Z) :
  transfer_checks verify s ctx r = inl (InsufficientFunds bal) ->
  exists src amt,
    resolve_account s (tr_from r) = Some src
    /\ decimal_of_get_default0 (tr_amount r) = Some amt
    /\ bal = ledger_balance s (acc_id src)
    /\ bal < amt.
Proof.
  unfold transfer_checks.
  destruct (negb (_has_any_account s ctx false)); [discriminate|].
  destruct (resolve_account s (tr_from r)) as [from_acc|]; [|discriminate].
  destruct (resolve_account s (tr_to r)) as [to_acc|]; [|discriminate].
  destruct (acc_id from_acc =? acc_id to_acc); [discriminate|].
  destruct (negb (is_active from_acc) || negb (is_active to_acc)); [discriminate|].
  destruct (negb (owns s ctx from_acc)); [discriminate|].
  destruct (decimal_of_get_default0 (tr_amount r)) as [amt|]; [|discriminate].
  destruct (amt <=? 0); [discriminate|].
  destruct (negb (pin_format_ok (tr_pin r))); [discriminate|].
  destruct (negb (pin_accepted verify s from_acc (tr_pin r))); [discriminate|].
  cbv zeta.
  destruct (ledger_balance s (acc_id from_acc) <? amt) eqn:Ebal; [|discriminate].
  intro H. inversion H; subst.
  exists from_acc, amt. apply Z.ltb_lt in Ebal.
  split; [reflexivity|]. split; [reflexivity|]. split; [reflexivity|exact Ebal].
Qed.

Lemma transfer_post_ok (s : Store) (ctx : Ctx) (p : TransferPlan) :
  transfer_post s ctx p
  = (snd (post_entries s ctx TRANSFER (Some (acc_id (tp_from p))) None
                       (Some (acc_id (tp_to p))) None (tp_amount p)),
     TransferOk (next_id (transactions s)) (acc_id (tp_from p)) (acc_id (tp_to p))
                (tp_amount p)
                (ledger_balance
                   (snd (post_entries s ctx TRANSFER (Some (acc_id (tp_from p))) None
                                      (Some (acc_id (tp_to p))) None (tp_amount p)))
                   (acc_id (tp_from p)))).
Proof. reflexivity. Qed.

(** C4.  A transfer that is answered with an error, whichever check (or
    the guard) raised it, leaves the store as it was: no transaction and
    no ledger entry is added and every balance is unchanged.  When the
    error is insufficient funds, the balance it carries is the balance of
    the source account in that store, and it is below the amount asked. *)
Theorem rejected_transfer_writes_nothing
        (verify : string -> string -> bool) (s s' : Store) (ctx : Ctx)
        (r : TransferRequest) (e : TransferError) :
  ib_transfer verify s ctx r = (s', TransferFail e) ->
  s' = s
  /\ transactions s' = transactions s
  /\ ledger_entries s' = ledger_entries s
  /\ (forall id, ledger_balance s' id = ledger_balance s id)
  /\ (forall bal, e = InsufficientFunds bal ->
                  exists src amt,
                    resolve_account s (tr_from r) = Some src
                    /\ decimal_of_get_default0 (tr_amount r) = Some amt
                    /\ bal = ledger_balance s (acc_id src)
                    /\ bal < amt).
Proof.
  unfold ib_transfer.
  destruct (transfer_checks verify s ctx r) as [e0|p] eqn:E.
  - intro H. inversion H; subst.
    repeat split; try reflexivity.
    intros bal ->. eapply transfer_checks_insufficient. exact E.
  - rewrite transfer_post_ok. discriminate.
Qed.

Lemma rejected_transfer_writes_nothing_witness :
  ib_transfer plain_verify busy (alice 400) (pay alice_no bob_no 90000 "1234")
  = (busy, TransferFail (InsufficientFunds 45000))
  /\ forall id, ledger_balance busy id = ledger_balance busy id.
Proof.
  split; [reflexivity|].
  exact (proj1 (proj2 (proj2 (proj2
           (rejected_transfer_writes_nothing plain_verify busy busy (alice 400)
              (pay alice_no bob_no 90000 "1234") (InsufficientFunds 45000) eq_refl))))).
Defined.

(** *** Two transfers against the same balance *)

Lemma side_total_after_post (s : Store) (ctx : Ctx) (ty : TxType)
      (da : option Z) (dg : option string) (ca : option Z) (cg : option string)
      (amt id : Z) :
  side_total (snd (post_entries s ctx ty da dg ca cg amt)) id "DR"
  = side_total s id "DR" + (if is_account id da then amt else 0)
  /\ side_total (snd (post_entries s ctx ty da dg ca cg amt)) id "CR"
     = side_total s id "CR" + (if is_account id ca then amt else 0).
Proof.
  unfold side_total. rewrite post_entries_ledger, !filter_app, !sum_amount_app. simpl.
  rewrite !andb_true_r, !andb_false_r.
  destruct (is_account id da), (is_account id ca); simpl; split; lia.
Qed.

Lemma balance_after_post (s : Store) (ctx : Ctx) (ty : TxType)
      (da : option Z) (dg : option string) (ca : option Z) (cg : option string)
      (amt id : Z) :
  ledger_balance (snd (post_entries s ctx ty da dg ca cg amt)) id
  = ledger_balance s id
    - (if is_account id da then amt else 0)
    + (if is_account id ca then amt else 0).
Proof.
  unfold ledger_balance.
  destruct (side_total_after_post s ctx ty da dg ca cg amt id) as [-> ->]. lia.
Qed.

Lemma transfer_checks_ok (verify : string -> string -> bool)
      (s : Store) (ctx : Ctx) (r : TransferRequest) (p : TransferPlan) :
  transfer_checks verify s ctx r = inr p ->
  acc_id (tp_from p) <> acc_id (tp_to p)
  /\ 0 < tp_amount p <= ledger_balance s (acc_id (tp_from p)).
Proof.
  unfold transfer_checks.
  destruct (negb (_has_any_account s ctx false)); [discriminate|].
  destruct (resolve_account s (tr_from r)) as [from_acc|]; [|discriminate].
  destruct (resolve_account s (tr_to r)) as [to_acc|]; [|discriminate].
  destruct (acc_id from_acc =? acc_id to_acc) eqn:Esame; [discriminate|].
  destruct (negb (is_active from_acc) || negb (is_active to_acc)); [discriminate|].
  destruct (negb (owns s ctx from_acc)); [discriminate|].
  destruct (decimal_of_get_default0 (tr_amount r)) as [amt|]; [|discriminate].
  destruct (amt <=? 0) eqn:Epos; [discriminate|].
  destruct (negb (pin_format_ok (tr_pin r))); [discriminate|].
  destruct (negb (pin_accepted verify s from_acc (tr_pin r))); [discriminate|].
  cbv zeta.
  destruct (ledger_balance s (acc_id from_acc) <? amt) eqn:Ebal; [discriminate|].
  intro H. inversion H; subst. simpl.
  apply Z.eqb_neq in Esame. apply Z.leb_gt in Epos. apply Z.ltb_ge in Ebal. lia.
Qed.


(** The two steps of a worker, run back to back, are the handler. *)
Lemma worker_alone_is_ib_transfer (verify : string -> string -> bool)
      (s : Store) (ctx : Ctx) (r : TransferRequest) (w : Worker) :
  interleave verify [First; First] s (Received ctx r) w
  = (fst (ib_transfer verify s ctx r), Responded (snd (ib_transfer verify s ctx r)), w).
Proof.
  unfold ib_transfer, interleave, worker_step.
  destruct (transfer_checks verify s ctx r) as [e|p]; [reflexivity|].
  rewrite transfer_post_ok. reflexivity.
Qed.




(** ** Account numbers *)

Lemma RequestStatus_eqb_eq (a b : RequestStatus) : RequestStatus_eqb a b = true <-> a = b.
Proof. destruct a, b; simpl; split; intro H; try reflexivity; discriminate. Qed.

Lemma find_set_next_serial_same (l : list AccountNumberSeq) (b v : Z) (q : AccountNumberSeq) :
  find (fun x => seq_branch_id x =? b) l = Some q ->
  find (fun x => seq_branch_id x =? b)
       (map (fun x => if seq_id x =? seq_id q
                      then mkSeq (seq_id x) (seq_branch_id x) v else x) l)
  = Some (mkSeq (seq_id q) (seq_branch_id q) v).
Proof.
  induction l as [|h l IH]; simpl; [discriminate|].
  destruct (seq_branch_id h =? b) eqn:Eb.
  - intro H. inversion H; subst. rewrite Z.eqb_refl. simpl. rewrite Eb. reflexivity.
  - intro H. destruct (seq_id h =? seq_id q); simpl; rewrite Eb; apply IH, H.
Qed.

Lemma find_set_next_serial_other (l : list AccountNumberSeq) (b id v : Z) :
  (forall x, In x l -> seq_id x = id -> seq_branch_id x <> b) ->
  find (fun x => seq_branch_id x =? b)
       (map (fun x => if seq_id x =? id then mkSeq (seq_id x) (seq_branch_id x) v else x) l)
  = find (fun x => seq_branch_id x =? b) l.
Proof.
  induction l as [|h l IH]; simpl; intro H; [reflexivity|].
  destruct (Z.eqb_spec (seq_id h) id) as [E|E]; simpl.
  - assert (Hb : seq_branch_id h <> b) by (apply H; [left; reflexivity|exact E]).
    apply Z.eqb_neq in Hb. rewrite Hb. apply IH. intros x Hx. apply H. right. exact Hx.
  - destruct (seq_branch_id h =? b); [reflexivity|].
    apply IH. intros x Hx. apply H. right. exact Hx.
Qed.

Lemma find_app_none {A : Type} (f : A -> bool) (l : list A) (x : A) :
  find f l = None -> find f (l ++ [x]) = if f x then Some x else None.
Proof.
  induction l as [|h l IH]; simpl; [reflexivity|].
  destruct (f h); [discriminate|exact IH].
Qed.

Lemma find_app_skip {A : Type} (f : A -> bool) (l : list A) (x : A) :
  f x = false -> find f (l ++ [x]) = find f l.
Proof.
  intro Hx. induction l as [|h l IH]; simpl; [rewrite Hx; reflexivity|].
  destruct (f h); [reflexivity|exact IH].
Qed.

Lemma NoDup_map_eq {A B : Type} (f : A -> B) (l : list A) (x y : A) :
  NoDup (map f l) -> In x l -> In y l -> f x = f y -> x = y.
Proof.
  induction l as [|h l IH]; simpl; intros Hnd Hx Hy E; [contradiction|].
  inversion Hnd as [|? ? Hnin Hnd']; subst.
  destruct Hx as [<-|Hx], Hy as [<-|Hy]; try reflexivity.
  - exfalso. apply Hnin. rewrite E. apply in_map, Hy.
  - exfalso. apply Hnin. rewrite <- E. apply in_map, Hx.
  - apply IH; assumption.
Qed.

Lemma take_serial_fst (s : Store) (br : Branch) :
  fst (take_serial s br) = current_serial s (br_id br).
Proof.
  unfold take_serial, current_serial.
  destruct (seq_for_branch s (br_id br)); reflexivity.
Qed.

Lemma take_serial_same_row (s : Store) (br : Branch) :
  exists q, seq_for_branch (snd (take_serial s br)) (br_id br) = Some q
            /\ next_serial q = current_serial s (br_id br) + 1.
Proof.
  unfold take_serial, current_serial, seq_for_branch.
  destruct (find (fun q => seq_branch_id q =? br_id br) (rows (account_number_seq s)))
    as [q|] eqn:E; cbn.
  - rewrite (find_set_next_serial_same _ _ (next_serial q + 1) q E).
    eexists. split; reflexivity.
  - rewrite (find_set_next_serial_same (rows (account_number_seq s) ++ [_]) (br_id br)
               (START_SERIAL + 1)
               (mkSeq (next_id (account_number_seq s)) (br_id br) 1000000001)).
    + eexists. split; reflexivity.
    + rewrite (find_app_none _ _ _ E). cbn. rewrite Z.eqb_refl. reflexivity.
Qed.

Lemma take_serial_other_row (s : Store) (br : Branch) (b : Z) :
  seq_keys_ok s -> b <> br_id br ->
  seq_for_branch (snd (take_serial s br)) b = seq_for_branch s b.
Proof.
  intros [Hnd Hlt] Hb. unfold take_serial, seq_for_branch.
  destruct (find (fun q => seq_branch_id q =? br_id br) (rows (account_number_seq s)))
    as [q|] eqn:E; cbn.
  - rewrite find_set_next_serial_other; [reflexivity|].
    intros x Hx Hid.
    destruct (find_some _ _ E) as [Hq Hqb]. apply Z.eqb_eq in Hqb.
    rewrite (NoDup_map_eq seq_id _ x q Hnd Hx Hq Hid). lia.
  - rewrite find_set_next_serial_other.
    + rewrite find_app_skip; [reflexivity|]. cbn. apply Z.eqb_neq. lia.
    + intros x Hx Hid. apply in_app_or in Hx. destruct Hx as [Hx|[<-|[]]].
      * rewrite Forall_forall in Hlt. specialize (Hlt x Hx). lia.
      * cbn. lia.
Qed.

Lemma take_serial_keys_ok (s : Store) (br : Branch) :
  seq_keys_ok s -> seq_keys_ok (snd (take_serial s br)).
Proof.
  intros [Hnd Hlt]. unfold take_serial, seq_keys_ok.
  destruct (seq_for_branch s (br_id br)) as [q|]; cbn.
  - rewrite map_map. split.
    + erewrite map_ext; [exact Hnd|]. intro x. destruct (seq_id x =? seq_id q); reflexivity.
    + rewrite Forall_map. eapply Forall_impl; [|exact Hlt].
      intros x Hx. destruct (seq_id x =? seq_id q); exact Hx.
  - rewrite map_map. split.
    + erewrite map_ext with (g := seq_id);
        [|intro x; destruct (seq_id x =? next_id (account_number_seq s)); reflexivity].
      rewrite map_app. cbn.
      apply (Permutation_NoDup (Permutation_cons_append _ _)).
      rewrite Forall_forall in Hlt.
      constructor.
      * intro Hin. apply in_map_iff in Hin.
        destruct Hin as [x [Ex Hx]]. specialize (Hlt x Hx). lia.
      * exact Hnd.
    + rewrite Forall_map, Forall_app. split.
      * eapply Forall_impl; [|exact Hlt].
        intros x Hx. cbn in *. destruct (seq_id x =? next_id (account_number_seq s)); cbn; lia.
      * constructor; [|constructor]. cbn. rewrite Z.eqb_refl. cbn. lia.
Qed.

Lemma take_serial_frame (s : Store) (br : Branch) :
  accounts (snd (take_serial s br)) = accounts s
  /\ account_requests (snd (take_serial s br)) = account_requests s
  /\ transactions (snd (take_serial s br)) = transactions s
  /\ ledger_entries (snd (take_serial s br)) = ledger_entries s
  /\ branches (snd (take_serial s br)) = branches s.
Proof.
  unfold take_serial. destruct (seq_for_branch s (br_id br)); cbn; repeat split.
Qed.

Lemma approve_cases (s : Store) (ctx : Ctx) (req_id : Z) (init_raw : RawAmount) :
  (exists e, ops_approve_request s ctx req_id init_raw = (s, ApproveFail e))
  \/ (exists ar br amt,
         is_staff s ctx = true
         /\ approve_initial_deposit init_raw = inr amt
         /\ get_request s req_id = Some ar
         /\ ar_status ar = PENDING
         /\ get_branch s (ar_branch_id ar) = Some br).
Proof.
  unfold ops_approve_request.
  destruct (is_staff s ctx) eqn:Estaff; cbn [negb]; [|left; eexists; reflexivity].
  destruct (approve_initial_deposit init_raw) as [e|amt] eqn:Einit;
    [left; eexists; reflexivity|].
  destruct (get_request s req_id) as [ar|] eqn:Ereq; [|left; eexists; reflexivity].
  destruct (RequestStatus_eqb (ar_status ar) PENDING) eqn:Est; cbn [negb];
    [|left; eexists; reflexivity].
  destruct (get_branch s (ar_branch_id ar)) as [br|] eqn:Ebr; [|left; eexists; reflexivity].
  right. exists ar, br, amt. apply RequestStatus_eqb_eq in Est.
  repeat split; try reflexivity; assumption.
Qed.

Lemma approve_success (s : Store) (ctx : Ctx) (req_id : Z) (init_raw : RawAmount)
      (ar : AccountRequest) (br : Branch) (amt : Z) :
  is_staff s ctx = true ->
  approve_initial_deposit init_raw = inr amt ->
  get_request s req_id = Some ar ->
  ar_status ar = PENDING ->
  get_branch s (ar_branch_id ar) = Some br ->
  let res := ops_approve_request s ctx req_id init_raw in
  let new_acc := mkAccount (next_id (accounts s)) (ar_customer_id ar) (br_id br)
                           (numbered br (current_serial s (br_id br)))
                           (ar_product ar) ACTIVE (now ctx) in
  snd res = ApproveOk (acc_id new_acc) (account_no new_acc) APPROVED amt
  /\ rows (accounts (fst res)) = rows (accounts s) ++ [new_acc]
  /\ account_requests (fst res) = set_request_status (ar_id ar) APPROVED (account_requests s)
  /\ account_number_seq (fst res) = account_number_seq (snd (take_serial s br))
  /\ branches (fst res) = branches s
  /\ (if 0 <? amt
      then rows (transactions (fst res))
           = rows (transactions s)
             ++ [mkTx (next_id (transactions s)) DEPOSIT POSTED (current_user ctx)
                      (Some (now ctx))]
           /\ rows (ledger_entries (fst res))
              = rows (ledger_entries s)
                ++ [mkEntry (next_id (ledger_entries s)) (next_id (transactions s))
                            None (Some GL_CASH_VAULT) "DR" amt (Some (now ctx));
                    mkEntry (next_id (ledger_entries s) + 1) (next_id (transactions s))
                            (Some (acc_id new_acc)) None "CR" amt (Some (now ctx))]
      else transactions (fst res) = transactions s
           /\ ledger_entries (fst res) = ledger_entries s).
Proof.
  intros Hstaff Hinit Hreq Hst Hbr. unfold ops_approve_request.
  rewrite Hstaff, Hinit, Hreq, Hst, Hbr. cbn [negb RequestStatus_eqb].
  destruct (take_serial_frame s br) as [Fa [Fr [Ft [Fl Fb]]]].
  pose proof (take_serial_fst s br) as Hserial.
  destruct (take_serial s br) as [serial s1]. cbn [fst snd] in *. subst serial.
  unfold db_add. cbv zeta. rewrite Fa.
  destruct (0 <? amt); cbn [fst snd].
  - unfold post_entries, db_add. cbn. rewrite ?Fl, ?Ft, ?Fr, ?Fb.
    repeat split. rewrite <- app_assoc. reflexivity.
  - cbn. rewrite ?Fl, ?Ft, ?Fr, ?Fb. repeat split.
Qed.

Lemma seq_for_branch_ext (s s' : Store) (b : Z) :
  account_number_seq s' = account_number_seq s -> seq_for_branch s' b = seq_for_branch s b.
Proof. intro E. unfold seq_for_branch. rewrite E. reflexivity. Qed.

Lemma seq_keys_ok_ext (s s' : Store) :
  account_number_seq s' = account_number_seq s -> seq_keys_ok s -> seq_keys_ok s'.
Proof. intros E H. unfold seq_keys_ok. rewrite E. exact H. Qed.

Lemma get_branch_ext (s s' : Store) (b : Z) :
  branches s' = branches s -> get_branch s' b = get_branch s b.
Proof. intro E. unfold get_branch. rewrite E. reflexivity. Qed.

Lemma posting_only_frame (s s' : Store) :
  posting_only s s' ->
  account_number_seq s' = account_number_seq s /\ branches s' = branches s.
Proof.
  intros [->|[ctx [ty [da [dg [ca [cg [amt ->]]]]]]]]; split; reflexivity.
Qed.

Lemma deposit_into_posting_only (s : Store) (ctx : Ctx) (found : option Account) (amt : Z) :
  posting_only s (fst (deposit_into s ctx found amt)).
Proof.
  unfold deposit_into.
  destruct found as [acc|]; [|left; reflexivity].
  destruct (negb (AccountStatus_eqb (acc_status acc) ACTIVE)); [left; reflexivity|].
  right. exists ctx, DEPOSIT, None, (Some GL_CASH_VAULT), (Some (acc_id acc)), None, amt.
  destruct (post_entries s ctx DEPOSIT None (Some GL_CASH_VAULT) (Some (acc_id acc)) None amt).
  reflexivity.
Qed.

Lemma exec_posting_only (verify : string -> string -> bool) (s : Store) (ctx : Ctx) (op : Op) :
  (forall req_id init_raw, op <> OpApprove req_id init_raw) ->
  posting_only s (exec verify s (ctx, op)).
Proof.
  intro Hop. unfold exec. cbn [fst snd].
  destruct op as [req_id init_raw|account_id amount_raw|acc_no amount_raw|r|loan_app_id r].
  - exfalso. exact (Hop req_id init_raw eq_refl).
  - unfold ops_post_deposit.
    destruct (negb (is_staff s ctx)); [left; reflexivity|].
    destruct (decimal_of_get amount_raw) as [amt|]; [|left; reflexivity].
    destruct (amt <=? 0); [left; reflexivity|].
    apply deposit_into_posting_only.
  - unfold ops_accept_cash_deposit.
    destruct (negb (is_staff s ctx)); [left; reflexivity|].
    destruct (decimal_of_get_default0 amount_raw) as [amt|]; [|left; reflexivity].
    destruct (amt <=? 0); [left; reflexivity|].
    destruct (String.eqb acc_no ""); [left; reflexivity|].
    apply deposit_into_posting_only.
  - unfold ib_transfer.
    destruct (transfer_checks verify s ctx r) as [e|p]; [left; reflexivity|].
    rewrite transfer_post_ok. right. repeat eexists.
  - unfold ops_loan_disburse.
    destruct (negb (is_staff s ctx)); [left; reflexivity|].
    destruct (negb (dr_rate_valid r)); [left; reflexivity|].
    destruct (negb (dr_term_valid r)); [left; reflexivity|].
    destruct (find _ (loan_applications s)) as [app|]; [|left; reflexivity].
    destruct (negb (RequestStatus_eqb (la_status app) APPROVED)); [left; reflexivity|].
    destruct (account_by_no s (dr_account_no r)) as [acc|]; [|left; reflexivity].
    destruct (negb (AccountStatus_eqb (acc_status acc) ACTIVE)); [left; reflexivity|].
    destruct (disburse_amount (dr_amount r) app) as [amt|]; [|left; reflexivity].
    destruct (amt <=? 0); [left; reflexivity|].
    right. exists ctx, LOAN_DISBURSAL, None, (Some GL_BANK_LOAN), (Some (acc_id acc)), None, amt.
    destruct (post_entries s ctx LOAN_DISBURSAL None (Some GL_BANK_LOAN)
                           (Some (acc_id acc)) None amt).
    reflexivity.
Qed.

Lemma exec_serial_step_other (verify : string -> string -> bool)
      (s : Store) (b : Z) (br : Branch) (ctx : Ctx) (op : Op) :
  (forall req_id init_raw, op <> OpApprove req_id init_raw) ->
  seq_keys_ok s ->
  get_branch s b = Some br ->
  seq_keys_ok (exec verify s (ctx, op))
  /\ get_branch (exec verify s (ctx, op)) b = Some br
  /\ serial_step s (exec verify s (ctx, op)) b br (issued_here s b (ctx, op)).
Proof.
  intros Hop Hok Hbr.
  destruct (posting_only_frame _ _ (exec_posting_only verify s ctx op Hop)) as [Fs Fb].
  split; [exact (seq_keys_ok_ext _ _ Fs Hok)|].
  split; [rewrite (get_branch_ext _ _ b Fb); exact Hbr|].
  left. split; [|apply seq_for_branch_ext, Fs].
  destruct op; try reflexivity. exfalso. eapply Hop. reflexivity.
Qed.

Lemma exec_serial_step (verify : string -> string -> bool)
      (s : Store) (b : Z) (br : Branch) (c : Ctx * Op) :
  seq_keys_ok s ->
  get_branch s b = Some br ->
  seq_keys_ok (exec verify s c)
  /\ get_branch (exec verify s c) b = Some br
  /\ serial_step s (exec verify s c) b br (issued_here s b c).
Proof.
  intros Hok Hbr. destruct c as [ctx op].
  destruct op as [req_id init_raw|account_id amount_raw|acc_no amount_raw|r|loan_app_id r];
    [|apply exec_serial_step_other; [intros; discriminate|assumption|assumption] ..].
  unfold exec, issued_here, serial_step. cbn [fst snd].
  destruct (approve_cases s ctx req_id init_raw)
    as [[e E]|[ar [br' [amt [Hstaff [Hinit [Hreq [Hst Hbr']]]]]]]].
  - rewrite E. cbn [fst].
    split; [exact Hok|]. split; [exact Hbr|].
    left. split; [destruct (get_request s req_id); reflexivity|reflexivity].
  - destruct (approve_success s ctx req_id init_raw ar br' amt Hstaff Hinit Hreq Hst Hbr')
      as [Hresp [_ [_ [Fs [Fb _]]]]].
    assert (Hid : br_id br' = ar_branch_id ar).
    { unfold get_branch in Hbr'. apply find_some in Hbr'. apply Z.eqb_eq, Hbr'. }
    split; [exact (seq_keys_ok_ext _ _ Fs (take_serial_keys_ok s br' Hok))|].
    split; [rewrite (get_branch_ext _ _ b Fb); exact Hbr|].
    rewrite (seq_for_branch_ext _ _ b Fs), Hreq.
    destruct (ops_approve_request s ctx req_id init_raw) as [s' resp].
    cbn [fst snd] in *. rewrite Hresp. cbn [acc_id account_no].
    destruct (Z.eqb_spec (ar_branch_id ar) b) as [Eb|Eb].
    + right. assert (br' = br) by congruence. subst br'.
      rewrite Hid, Eb. split; [reflexivity|].
      rewrite <- Eb, <- Hid. apply take_serial_same_row.
    + left. split; [reflexivity|]. apply take_serial_other_row; [exact Hok|congruence].
Qed.

Lemma serial_step_current (s s' : Store) (b : Z) (br : Branch) (out : list string) :
  serial_step s s' b br out ->
  current_serial s' b = current_serial s b + Z.of_nat (List.length out)
  /\ (seq_for_branch s b <> None \/ out <> [] -> seq_for_branch s' b <> None).
Proof.
  intros [[-> E]|[-> [q [E Hq]]]].
  - unfold current_serial. rewrite E. simpl. split; [lia|].
    intros [H|H]; [exact H|contradiction].
  - unfold current_serial at 1. rewrite E, Hq. simpl. split; [lia|].
    intros _. discriminate.
Qed.

Lemma issued_run (verify : string -> string -> bool) (b : Z) (br : Branch)
      (reqs : list (Ctx * Op)) (s : Store) :
  seq_keys_ok s ->
  get_branch s b = Some br ->
  issued verify s b reqs
  = map (fun k => numbered br (current_serial s b + Z.of_nat k))
        (seq 0 (List.length (issued verify s b reqs)))
  /\ current_serial (final verify s reqs) b
     = current_serial s b + Z.of_nat (List.length (issued verify s b reqs))
  /\ (seq_for_branch s b <> None \/ issued verify s b reqs <> [] ->
      seq_for_branch (final verify s reqs) b <> None).
Proof.
  revert s. induction reqs as [|c reqs IH]; intros s Hok Hbr.
  - simpl. split; [reflexivity|]. split; [lia|].
    intros [H|H]; [exact H|contradiction].
  - destruct (exec_serial_step verify s b br c Hok Hbr) as [Hok' [Hbr' Hstep]].
    destruct (IH (exec verify s c) Hok' Hbr') as [IHl [IHs IHr]].
    destruct (serial_step_current _ _ _ _ _ Hstep) as [Hcur Hrow].
    change (final verify s (c :: reqs)) with (final verify (exec verify s c) reqs).
    change (issued verify s b (c :: reqs))
      with (issued_here s b c ++ issued verify (exec verify s c) b reqs).
    rewrite length_app, Nat2Z.inj_add.
    split; [|split].
    + destruct Hstep as [[Hi _]|[Hi _]]; rewrite Hi in *; cbn [app List.length Nat.add].
      * simpl in Hcur. rewrite Z.add_0_r in Hcur. rewrite Hcur in IHl. exact IHl.
      * cbn [seq map]. rewrite Z.add_0_r. f_equal.
        rewrite <- seq_shift, map_map.
        etransitivity; [exact IHl|]. apply map_ext. intro k. f_equal.
        rewrite Hcur. simpl List.length. lia.
    + rewrite IHs, Hcur. lia.
    + intros [H|H].
      * apply IHr. left. apply Hrow. left. exact H.
      * destruct (issued_here s b c) as [|x l] eqn:Ei.
        -- apply IHr. right. exact H.
        -- apply IHr. left. apply Hrow. right. discriminate.
Qed.

(** C6.  Over any sequence of requests, the account numbers handed out for
    one branch are, in order, the branch code followed by the serials
    [n], [n+1], [n+2], ... where [n] is the branch's current serial before
    the sequence: the [next_serial] of its row, or 1000000001 when the
    branch has no row yet.  After the sequence the branch's serial has
    advanced by the number of accounts opened in it, and the branch has a
    row as soon as one account was opened. *)
Theorem account_numbers_follow_branch_serial
        (verify : string -> string -> bool) (s : Store) (b : Z) (br : Branch)
        (reqs : list (Ctx * Op)) :
  seq_keys_ok s ->
  get_branch s b = Some br ->
  issued verify s b reqs
  = map (fun k => (br_code br ++ str_of_int (current_serial s b + Z.of_nat k))%string)
        (seq 0 (List.length (issued verify s b reqs)))
  /\ current_serial (final verify s reqs) b
     = current_serial s b + Z.of_nat (List.length (issued verify s b reqs))
  /\ (seq_for_branch s b = None -> current_serial s b = 1000000001)
  /\ (issued verify s b reqs <> [] -> seq_for_branch (final verify s reqs) b <> None).
Proof.
  intros Hok Hbr.
  destruct (issued_run verify b br reqs s Hok Hbr) as [H1 [H2 H3]].
  split; [exact H1|]. split; [exact H2|]. split.
  - intro E. unfold current_serial. rewrite E. reflexivity.
  - intro Hne. apply H3. right. exact Hne.
Qed.

Lemma account_numbers_follow_branch_serial_witness :
  seq_for_branch seed 1 = None
  /\ issued plain_verify seed 1
            [(teller 100, OpApprove 1 (RawText (Some 80000)));
             (teller 101, OpApprove 3 RawMissing);
             (teller 102, OpApprove 1 RawMissing);
             (teller 103, OpApprove 2 RawMissing)]
     = ["B0011000000001"%string; "B0011000000002"%string]
  /\ current_serial
       (final plain_verify seed
              [(teller 100, OpApprove 1 (RawText (Some 80000)));
               (teller 101, OpApprove 3 RawMissing);
               (teller 102, OpApprove 1 RawMissing);
               (teller 103, OpApprove 2 RawMissing)]) 1
     = current_serial seed 1
       + Z.of_nat (List.length
                     (issued plain_verify seed 1
                             [(teller 100, OpApprove 1 (RawText (Some 80000)));
                              (teller 101, OpApprove 3 RawMissing);
                              (teller 102, OpApprove 1 RawMissing);
                              (teller 103, OpApprove 2 RawMissing)])).
Proof.
  assert (Hok : seq_keys_ok seed).
  { split; [constructor|constructor]. }
  split; [reflexivity|]. split; [reflexivity|].
  exact (proj1 (proj2 (account_numbers_follow_branch_serial plain_verify seed 1
                         (mkBranch 1 "B001") _ Hok eq_refl))).
Defined.

(** ** Approval *)

Lemma get_request_approved (l : list AccountRequest) (req_id : Z) (ar : AccountRequest) :
  find (fun r => ar_id r =? req_id) l = Some ar ->
  find (fun r => ar_id r =? req_id) (set_request_status (ar_id ar) APPROVED l)
  = Some (approved ar).
Proof.
  intro H. assert (Hid : ar_id ar = req_id).
  { apply find_some in H. apply Z.eqb_eq, H. }
  rewrite Hid. clear Hid. revert H.
  induction l as [|h l IH]; simpl; [discriminate|].
  destruct (ar_id h =? req_id) eqn:E.
  - intro H. inversion H; subst. simpl. rewrite E. reflexivity.
  - intro H. rewrite E. apply IH, H.
Qed.




(** * Further properties *)

(** ** What one request does to the books *)

Lemma same_books_refl (s : Store) : same_books s s.
Proof. repeat split. Qed.

Lemma get_account_In (s : Store) (id : Z) (acc : Account) :
  get_account s id = Some acc -> In acc (rows (accounts s)) /\ acc_id acc = id.
Proof.
  unfold get_account. intro H. apply find_some in H.
  destruct H as [Hin E]. apply Z.eqb_eq in E. split; assumption.
Qed.

Lemma account_by_no_In (s : Store) (no : string) (acc : Account) :
  account_by_no s no = Some acc -> In acc (rows (accounts s)) /\ account_no acc = no.
Proof.
  unfold account_by_no. intro H. apply find_some in H.
  destruct H as [Hin E]. apply String.eqb_eq in E. split; assumption.
Qed.

Lemma resolve_account_In (s : Store) (r : AccountRef) (acc : Account) :
  resolve_account s r = Some acc -> In acc (rows (accounts s)).
Proof.
  destruct r as [|no|id|]; simpl; try discriminate; intro H.
  - apply account_by_no_In in H. tauto.
  - apply get_account_In in H. tauto.
Qed.

Lemma transfer_checks_members (verify : string -> string -> bool)
      (s : Store) (ctx : Ctx) (r : TransferRequest) (p : TransferPlan) :
  transfer_checks verify s ctx r = inr p ->
  resolve_account s (tr_from r) = Some (tp_from p)
  /\ resolve_account s (tr_to r) = Some (tp_to p)
  /\ decimal_of_get_default0 (tr_amount r) = Some (tp_amount p)
  /\ is_active (tp_from p) = true
  /\ is_active (tp_to p) = true
  /\ owns s ctx (tp_from p) = true
  /\ pin_accepted verify s (tp_from p) (tr_pin r) = true.
Proof.
  unfold transfer_checks.
  destruct (negb (_has_any_account s ctx false)); [discriminate|].
  destruct (resolve_account s (tr_from r)) as [from_acc|]; [|discriminate].
  destruct (resolve_account s (tr_to r)) as [to_acc|]; [|discriminate].
  destruct (acc_id from_acc =? acc_id to_acc); [discriminate|].
  destruct (is_active from_acc) eqn:Eaf, (is_active to_acc) eqn:Eat; cbn [negb orb];
    try discriminate.
  destruct (owns s ctx from_acc) eqn:Eown; cbn [negb]; [|discriminate].
  destruct (decimal_of_get_default0 (tr_amount r)) as [amt|]; [|discriminate].
  destruct (amt <=? 0); [discriminate|].
  destruct (negb (pin_format_ok (tr_pin r))); [discriminate|].
  destruct (pin_accepted verify s from_acc (tr_pin r)) eqn:Epin; cbn [negb]; [|discriminate].
  cbv zeta. destruct (ledger_balance s (acc_id from_acc) <? amt); [discriminate|].
  intro H. inversion H; subst. cbn [tp_from tp_to tp_amount].
  repeat split; try reflexivity; assumption.
Qed.

Lemma deposit_into_step (s : Store) (ctx : Ctx) (found : option Account) (amt : Z) :
  (forall acc, found = Some acc -> In acc (rows (accounts s))) ->
  0 < amt ->
  books_step s (fst (deposit_into s ctx found amt)).
Proof.
  intros Hin Hpos. unfold deposit_into.
  destruct found as [acc|]; [|apply step_none, same_books_refl].
  destruct (negb (AccountStatus_eqb (acc_status acc) ACTIVE));
    [apply step_none, same_books_refl|].
  apply step_posted.
  pose proof (posted_credit s ctx DEPOSIT GL_CASH_VAULT acc amt Hpos (Hin acc eq_refl)) as P.
  destruct (post_entries s ctx DEPOSIT None (Some GL_CASH_VAULT) (Some (acc_id acc)) None amt).
  exact P.
Qed.

Lemma approve_books_step (s : Store) (ctx : Ctx) (req_id : Z) (init_raw : RawAmount) :
  books_step s (fst (ops_approve_request s ctx req_id init_raw)).
Proof.
  unfold ops_approve_request.
  destruct (negb (is_staff s ctx)); [apply step_none, same_books_refl|].
  destruct (approve_initial_deposit init_raw) as [e|amt]; [apply step_none, same_books_refl|].
  destruct (get_request s req_id) as [ar|]; [|apply step_none, same_books_refl].
  destruct (negb (RequestStatus_eqb (ar_status ar) PENDING));
    [apply step_none, same_books_refl|].
  destruct (get_branch s (ar_branch_id ar)) as [br|]; [|apply step_none, same_books_refl].
  destruct (take_serial_frame s br) as [Fa [_ [Ft [Fl _]]]].
  destruct (take_serial s br) as [serial s1]. cbn [fst snd] in *.
  unfold db_add. cbv zeta. cbn [fst snd]. rewrite Fa.
  set (acc := mkAccount (next_id (accounts s)) (ar_customer_id ar) (br_id br)
                        (br_code br ++ str_of_int serial)%string (ar_product ar) ACTIVE
                        (now ctx)).
  set (s2 := set_accounts s1 (mkTable (rows (accounts s) ++ [acc]) (next_id (accounts s) + 1))).
  assert (Hadd : account_added s s2).
  { split; [|split; [exact Ft|exact Fl]].
    exists acc. repeat split. }
  destruct (Z.ltb_spec 0 amt) as [Hpos|Hle].
  - eapply step_opened with (s2 := s2)
                            (s3 := snd (post_entries s2 ctx DEPOSIT None (Some GL_CASH_VAULT)
                                                     (Some (acc_id acc)) None amt)).
    + exact Hadd.
    + right. apply posted_credit; [exact Hpos|].
      unfold s2. cbn. apply in_or_app. right. left. reflexivity.
    + repeat split.
  - eapply step_opened with (s2 := s2) (s3 := s2); [exact Hadd|left; reflexivity|repeat split].
Qed.

Lemma exec_books_step (verify : string -> string -> bool) (s : Store) (c : Ctx * Op) :
  books_step s (exec verify s c).
Proof.
  destruct c as [ctx op]. unfold exec. cbn [fst snd].
  destruct op as [req_id init_raw|account_id amount_raw|acc_no amount_raw|r|loan_app_id r].
  - apply approve_books_step.
  - unfold ops_post_deposit.
    destruct (negb (is_staff s ctx)); [apply step_none, same_books_refl|].
    destruct (decimal_of_get amount_raw) as [amt|]; [|apply step_none, same_books_refl].
    destruct (Z.leb_spec amt 0); [apply step_none, same_books_refl|].
    apply deposit_into_step; [|assumption].
    intros acc Hacc. destruct account_id as [id|]; [|discriminate].
    apply get_account_In in Hacc. tauto.
  - unfold ops_accept_cash_deposit.
    destruct (negb (is_staff s ctx)); [apply step_none, same_books_refl|].
    destruct (decimal_of_get_default0 amount_raw) as [amt|];
      [|apply step_none, same_books_refl].
    destruct (Z.leb_spec amt 0); [apply step_none, same_books_refl|].
    destruct (String.eqb acc_no ""); [apply step_none, same_books_refl|].
    apply deposit_into_step; [|assumption].
    intros acc Hacc. apply account_by_no_In in Hacc. tauto.
  - unfold ib_transfer.
    destruct (transfer_checks verify s ctx r) as [e|p] eqn:E;
      [apply step_none, same_books_refl|].
    rewrite transfer_post_ok. cbn [fst].
    destruct (transfer_checks_ok verify s ctx r p E) as [_ [Hpos Hfunds]].
    destruct (transfer_checks_members verify s ctx r p E) as [Hf [Ht _]].
    apply step_posted, posted_transfer; try assumption.
    + eapply resolve_account_In, Hf.
    + eapply resolve_account_In, Ht.
  - unfold ops_loan_disburse.
    destruct (negb (is_staff s ctx)); [apply step_none, same_books_refl|].
    destruct (negb (dr_rate_valid r)); [apply step_none, same_books_refl|].
    destruct (negb (dr_term_valid r)); [apply step_none, same_books_refl|].
    destruct (find _ (loan_applications s)) as [app|]; [|apply step_none, same_books_refl].
    destruct (negb (RequestStatus_eqb (la_status app) APPROVED));
      [apply step_none, same_books_refl|].
    destruct (account_by_no s (dr_account_no r)) as [acc|] eqn:Eacc;
      [|apply step_none, same_books_refl].
    destruct (negb (AccountStatus_eqb (acc_status acc) ACTIVE));
      [apply step_none, same_books_refl|].
    destruct (disburse_amount (dr_amount r) app) as [amt|];
      [|apply step_none, same_books_refl].
    destruct (Z.leb_spec amt 0); [apply step_none, same_books_refl|].
    apply step_posted.
    apply account_by_no_In in Eacc.
    pose proof (posted_credit s ctx LOAN_DISBURSAL GL_BANK_LOAN acc amt
                  ltac:(assumption) (proj1 Eacc)) as P.
    destruct (post_entries s ctx LOAN_DISBURSAL None (Some GL_BANK_LOAN)
                           (Some (acc_id acc)) None amt).
    exact P.
Qed.

(** A property of the books that every shape of step keeps is kept by any
    sequence of requests. *)
Lemma final_preserves (verify : string -> string -> bool) (P : Store -> Prop) :
  (forall s s', same_books s s' -> P s -> P s') ->
  (forall s s', posted s s' -> P s -> P s') ->
  (forall s s', account_added s s' -> P s -> P s') ->
  forall reqs s, P s -> P (final verify s reqs).
Proof.
  intros Hsame Hposted Hadded reqs.
  induction reqs as [|c reqs IH]; intros s H; [exact H|].
  change (final verify s (c :: reqs)) with (final verify (exec verify s c) reqs).
  apply IH.
  destruct (exec_books_step verify s c) as [Hs|Hp|s2 s3 Ha Hp Hs].
  - eapply Hsame; eassumption.
  - eapply Hposted; eassumption.
  - eapply Hsame; [exact Hs|].
    destruct Hp as [->|Hp]; [eapply Hadded; eassumption|].
    eapply Hposted; [exact Hp|]. eapply Hadded; eassumption.
Qed.

(** ** Invariants kept by every sequence of requests *)

Lemma ledger_balance_ext (s s' : Store) (id : Z) :
  ledger_entries s' = ledger_entries s -> ledger_balance s' id = ledger_balance s id.
Proof. intro E. unfold ledger_balance, side_total. rewrite E. reflexivity. Qed.

Lemma posted_balance (s s' : Store) (id : Z) :
  posted s s' -> solvent s -> 0 <= ledger_balance s' id.
Proof.
  intros Hp Hs. pose proof (Hs id) as Hid.
  destruct Hp as [ctx ty g acc amt Hpos _|ctx f t amt Hpos Hfunds _ _];
    rewrite balance_after_post; cbn [is_account].
  - destruct (acc_id acc =? id); lia.
  - destruct (Z.eqb_spec (acc_id f) id) as [E|E], (acc_id t =? id); subst; lia.
Qed.

(** X1.  If no account is overdrawn, then no account is overdrawn after
    any sequence of approvals, deposits, transfers and disbursals handled
    one after the other. *)
Theorem no_overdraft_in_sequence
        (verify : string -> string -> bool) (s : Store) (reqs : list (Ctx * Op)) :
  solvent s -> solvent (final verify s reqs).
Proof.
  apply (final_preserves verify solvent).
  - intros a b [_ [_ El]] H id. rewrite (ledger_balance_ext _ _ id El). apply H.
  - intros a b Hp H id. eapply posted_balance; eassumption.
  - intros a b [_ [_ El]] H id. rewrite (ledger_balance_ext _ _ id El). apply H.
Qed.

Lemma no_overdraft_in_sequence_witness :
  solvent seed
  /\ solvent (final plain_verify seed
                    [(teller 100, OpApprove 1 (RawText (Some 80000)));
                     (teller 101, OpApprove 2 RawMissing);
                     (alice 200, OpTransfer (pay alice_no bob_no 90000 "1234"))]).
Proof.
  assert (H : solvent seed) by (intro id; vm_compute; discriminate).
  split; [exact H|].
  exact (no_overdraft_in_sequence plain_verify seed _ H).
Defined.




Lemma extends_refl {A : Type} (l : list A) : extends l l.
Proof. exists []. rewrite app_nil_r. reflexivity. Qed.

Lemma extends_app {A : Type} (l0 l extra : list A) : extends l0 l -> extends l0 (l ++ extra).
Proof. intros [e ->]. exists (e ++ extra). rewrite app_assoc. reflexivity. Qed.

Lemma post_entries_transactions (s : Store) (ctx : Ctx) (ty : TxType)
      (da : option Z) (dg : option string) (ca : option Z) (cg : option string) (amt : Z) :
  transactions (snd (post_entries s ctx ty da dg ca cg amt))
  = mkTable (rows (transactions s)
             ++ [mkTx (next_id (transactions s)) ty POSTED (current_user ctx) (Some (now ctx))])
            (next_id (transactions s) + 1).
Proof. reflexivity. Qed.

(** X3.  The books are append-only: after any sequence of requests the
    account, transaction and ledger tables start with the rows they had
    before, in the same order and unchanged. *)
Theorem books_are_append_only
        (verify : string -> string -> bool) (s : Store) (reqs : list (Ctx * Op)) :
  extends (rows (accounts s)) (rows (accounts (final verify s reqs)))
  /\ extends (rows (transactions s)) (rows (transactions (final verify s reqs)))
  /\ extends (rows (ledger_entries s)) (rows (ledger_entries (final verify s reqs))).
Proof.
  apply (final_preserves verify
           (fun s' => extends (rows (accounts s)) (rows (accounts s'))
                      /\ extends (rows (transactions s)) (rows (transactions s'))
                      /\ extends (rows (ledger_entries s)) (rows (ledger_entries s')))).
  - intros a b [Ea [Et El]] H. rewrite Ea, Et, El. exact H.
  - intros a b Hp [Ha [Ht Hl]].
    assert (E : exists ctx ty da dg ca cg amt, b = snd (post_entries a ctx ty da dg ca cg amt)).
    { destruct Hp; repeat eexists. }
    destruct E as [ctx [ty [da [dg [ca [cg [amt ->]]]]]]].
    rewrite post_entries_ledger, post_entries_transactions. cbn [rows].
    split; [exact Ha|]. split; apply extends_app; assumption.
  - intros a b [[acc [_ [_ Ea]]] [Et El]] [Ha [Ht Hl]].
    rewrite Ea, Et, El. cbn [rows].
    split; [apply extends_app, Ha|]. split; assumption.
  - split; [|split]; apply extends_refl.
Qed.

Lemma keys_ok_add {A : Type} (key : A -> Z) (t : Table A) (r : A) :
  keys_ok key t -> key r = next_id t ->
  keys_ok key (mkTable (rows t ++ [r]) (next_id t + 1)).
Proof.
  intros [Hnd Hlt] Hr. unfold keys_ok. cbn [rows next_id]. split.
  - rewrite map_app. cbn [map].
    apply (Permutation_NoDup (Permutation_cons_append _ _)).
    constructor; [|exact Hnd].
    intro Hin. apply in_map_iff in Hin. destruct Hin as [x [Ex Hx]].
    rewrite Forall_forall in Hlt. specialize (Hlt x Hx). lia.
  - apply Forall_app. split.
    + eapply Forall_impl; [|exact Hlt]. cbn. intros. lia.
    + constructor; [lia|constructor].
Qed.

Lemma entry_refs_ok_mono (s s' : Store) (e : LedgerEntry) :
  (forall t, In t (rows (transactions s)) -> In t (rows (transactions s'))) ->
  (forall a, In a (rows (accounts s)) -> In a (rows (accounts s'))) ->
  entry_refs_ok s e -> entry_refs_ok s' e.
Proof.
  intros Ht Ha [[t [Hin E]] Hacc]. split.
  - exists t. split; [apply Ht, Hin|exact E].
  - intros a Hsome. destruct (Hacc a Hsome) as [acc [Hin' E']].
    exists acc. split; [apply Ha, Hin'|exact E'].
Qed.

Lemma post_entries_references (s : Store) (ctx : Ctx) (ty : TxType)
      (da : option Z) (dg : option string) (ca : option Z) (cg : option string) (amt : Z) :
  (forall a, da = Some a -> exists acc, In acc (rows (accounts s)) /\ acc_id acc = a) ->
  (forall a, ca = Some a -> exists acc, In acc (rows (accounts s)) /\ acc_id acc = a) ->
  references_ok s ->
  references_ok (snd (post_entries s ctx ty da dg ca cg amt)).
Proof.
  intros Hda Hca [Kt [Kl [Ka Hrefs]]].
  set (s' := snd (post_entries s ctx ty da dg ca cg amt)).
  assert (Htx : forall t, In t (rows (transactions s)) -> In t (rows (transactions s'))).
  { intros t Hin. unfold s'. rewrite post_entries_transactions. cbn [rows].
    apply in_or_app. left. exact Hin. }
  assert (Hnew : exists t, In t (rows (transactions s'))
                           /\ tx_id t = next_id (transactions s)).
  { eexists. split.
    - unfold s'. rewrite post_entries_transactions. cbn [rows].
      apply in_or_app. right. left. reflexivity.
    - reflexivity. }
  split; [|split; [|split]].
  - unfold s'. rewrite post_entries_transactions. apply keys_ok_add; [exact Kt|reflexivity].
  - change (ledger_entries s')
      with (mkTable
              ((rows (ledger_entries s)
                ++ [mkEntry (next_id (ledger_entries s)) (next_id (transactions s))
                            da dg "DR" amt (Some (now ctx))])
               ++ [mkEntry (next_id (ledger_entries s) + 1) (next_id (transactions s))
                           ca cg "CR" amt (Some (now ctx))])
              (next_id (ledger_entries s) + 1 + 1)).
    apply (keys_ok_add le_id
             (mkTable (rows (ledger_entries s)
                       ++ [mkEntry (next_id (ledger_entries s)) (next_id (transactions s))
                                   da dg "DR" amt (Some (now ctx))])
                      (next_id (ledger_entries s) + 1))); [|reflexivity].
    apply keys_ok_add; [exact Kl|reflexivity].
  - exact Ka.
  - unfold s' at 2. rewrite post_entries_ledger. apply Forall_app. split.
    + eapply Forall_impl; [|exact Hrefs].
      intros e He. eapply entry_refs_ok_mono; [exact Htx| |exact He].
      intros a Hin. exact Hin.
    + constructor; [|constructor; [|constructor]]; split; cbn; try exact Hnew;
        assumption.
Qed.

(** X4.  Keys and references stay sound over any sequence of requests:
    transaction, entry and account keys stay distinct and below their
    counters, and every ledger entry keeps pointing at a stored
    transaction and, when it names an account, at a stored account. *)
Theorem references_stay_sound
        (verify : string -> string -> bool) (s : Store) (reqs : list (Ctx * Op)) :
  references_ok s -> references_ok (final verify s reqs).
Proof.
  apply (final_preserves verify references_ok).
  - intros a b [Ea [Et El]] [Kt [Kl [Ka Hrefs]]].
    unfold references_ok. rewrite Ea, Et, El.
    split; [exact Kt|]. split; [exact Kl|]. split; [exact Ka|].
    eapply Forall_impl; [|exact Hrefs].
    intros e He. eapply entry_refs_ok_mono; [| |exact He]; intros x Hx.
    + rewrite Et. exact Hx.
    + rewrite Ea. exact Hx.
  - intros a b Hp H.
    destruct Hp as [ctx ty g acc amt _ Hin|ctx f t amt _ _ Hf Ht];
      apply post_entries_references; try exact H; intros x Hx;
      try discriminate; inversion Hx; subst.
    + exists acc. split; [exact Hin|reflexivity].
    + exists f. split; [exact Hf|reflexivity].
    + exists t. split; [exact Ht|reflexivity].
  - intros a b [[acc [Hid [_ Ea]]] [Et El]] [Kt [Kl [Ka Hrefs]]].
    unfold references_ok. rewrite Ea, Et, El.
    split; [exact Kt|]. split; [exact Kl|]. split; [apply keys_ok_add; assumption|].
    eapply Forall_impl; [|exact Hrefs].
    intros e He. eapply entry_refs_ok_mono; [| |exact He]; intros x Hx.
    + rewrite Et. exact Hx.
    + rewrite Ea. cbn [rows]. apply in_or_app. left. exact Hx.
Qed.

Lemma references_stay_sound_witness :
  references_ok seed
  /\ references_ok (final plain_verify seed
                          [(teller 100, OpApprove 1 (RawText (Some 80000)));
                           (teller 101, OpApprove 2 RawMissing);
                           (alice 200, OpTransfer (pay alice_no bob_no 30000 "1234"))]).
Proof.
  assert (H : references_ok seed).
  { repeat split; constructor. }
  split; [exact H|].
  exact (references_stay_sound plain_verify seed _ H).
Defined.

(** ** Deposits *)






(** ** Transfers: what a success moves *)



(** ** Requests are decided once *)

Lemma get_request_set_status (l : list AccountRequest) (req_id : Z) (ar : AccountRequest)
      (st : RequestStatus) :
  find (fun r => ar_id r =? req_id) l = Some ar ->
  find (fun r => ar_id r =? req_id) (set_request_status (ar_id ar) st l)
  = Some (mkRequest (ar_id ar) (ar_customer_id ar) (ar_branch_id ar) (ar_product ar) st).
Proof.
  intro H. assert (Hid : ar_id ar = req_id).
  { apply find_some in H. apply Z.eqb_eq, H. }
  rewrite Hid at 1. revert H.
  induction l as [|h l IH]; simpl; [discriminate|].
  destruct (ar_id h =? req_id) eqn:E.
  - intro H. inversion H; subst. simpl. rewrite Z.eqb_refl. reflexivity.
  - intro H. rewrite E. apply IH, H.
Qed.

Lemma decided_request_is_closed (s : Store) (req_id : Z) (ar : AccountRequest) :
  get_request s req_id = Some ar ->
  ar_status ar <> PENDING ->
  (forall ctx init_raw,
      exists e, ops_approve_request s ctx req_id init_raw = (s, ApproveFail e))
  /\ (forall ctx remark,
         exists e, ops_decline_request s ctx req_id remark = (s, DeclineFail e)).
Proof.
  intros Hreq Hst.
  assert (E : RequestStatus_eqb (ar_status ar) PENDING = false).
  { destruct (RequestStatus_eqb (ar_status ar) PENDING) eqn:E; [|reflexivity].
    apply RequestStatus_eqb_eq in E. contradiction. }
  split.
  - intros ctx init_raw. unfold ops_approve_request.
    destruct (negb (is_staff s ctx)); [eexists; reflexivity|].
    destruct (approve_initial_deposit init_raw); [eexists; reflexivity|].
    rewrite Hreq, E. eexists. reflexivity.
  - intros ctx remark. unfold ops_decline_request.
    destruct (negb (is_staff s ctx)); [eexists; reflexivity|].
    destruct (String.eqb remark ""); [eexists; reflexivity|].
    rewrite Hreq, E. eexists. reflexivity.
Qed.

Lemma approve_keeps_directory (s : Store) (ctx : Ctx) (req_id : Z) (init_raw : RawAmount) :
  let s' := fst (ops_approve_request s ctx req_id init_raw) in
  roles s' = roles s /\ user_roles s' = user_roles s /\ customers s' = customers s
  /\ internet_banking s' = internet_banking s
  /\ loan_applications s' = loan_applications s.
Proof.
  unfold ops_approve_request.
  destruct (negb (is_staff s ctx)); [repeat split|].
  destruct (approve_initial_deposit init_raw) as [e|amt]; [repeat split|].
  destruct (get_request s req_id) as [ar|]; [|repeat split].
  destruct (negb (RequestStatus_eqb (ar_status ar) PENDING)); [repeat split|].
  destruct (get_branch s (ar_branch_id ar)) as [br|]; [|repeat split].
  unfold take_serial.
  destruct (seq_for_branch s (br_id br)); destruct (0 <? amt); repeat split.
Qed.

Lemma is_staff_ext (s s' : Store) (ctx : Ctx) :
  roles s' = roles s -> user_roles s' = user_roles s -> is_staff s' ctx = is_staff s ctx.
Proof. intros E1 E2. unfold is_staff, _has_role. rewrite E1, E2. reflexivity. Qed.

(** X8.  An approved request is closed: once an approval has succeeded,
    every further approval and every decline of the same request is
    answered with an error and writes nothing, so the request opens one
    account only; staff repeating the approval are told that the request
    is already APPROVED. *)
Theorem approved_request_is_closed
        (s : Store) (ctx : Ctx) (req_id : Z) (init_raw : RawAmount)
        (ar : AccountRequest) (br : Branch) (amt : Z) :
  is_staff s ctx = true ->
  approve_initial_deposit init_raw = inr amt ->
  get_request s req_id = Some ar ->
  ar_status ar = PENDING ->
  get_branch s (ar_branch_id ar) = Some br ->
  let s' := fst (ops_approve_request s ctx req_id init_raw) in
  (forall ctx' init_raw',
      exists e, ops_approve_request s' ctx' req_id init_raw' = (s', ApproveFail e))
  /\ (forall ctx' remark,
         exists e, ops_decline_request s' ctx' req_id remark = (s', DeclineFail e))
  /\ ops_approve_request s' ctx req_id init_raw
     = (s', ApproveFail (RequestAlready APPROVED)).
Proof.
  intros Hstaff Hinit Hreq Hst Hbr s'.
  destruct (approve_success s ctx req_id init_raw ar br amt Hstaff Hinit Hreq Hst Hbr)
    as [_ [_ [Hreqs _]]].
  assert (Hreq' : get_request s' req_id = Some (approved ar)).
  { unfold get_request, s'. rewrite Hreqs. apply get_request_approved. exact Hreq. }
  destruct (decided_request_is_closed s' req_id (approved ar) Hreq') as [Ha Hd];
    [discriminate|].
  split; [exact Ha|]. split; [exact Hd|].
  destruct (approve_keeps_directory s ctx req_id init_raw) as [Er [Eu _]].
  unfold ops_approve_request at 1.
  rewrite (is_staff_ext s s' ctx Er Eu), Hstaff, Hinit, Hreq'. reflexivity.
Qed.

Lemma approved_request_is_closed_witness :
  ops_approve_request (fst (ops_approve_request seed (teller 100) 1 RawMissing))
                      (teller 100) 1 RawMissing
  = (fst (ops_approve_request seed (teller 100) 1 RawMissing),
     ApproveFail (RequestAlready APPROVED)).
Proof.
  exact (proj2 (proj2 (approved_request_is_closed seed (teller 100) 1 RawMissing
                         (mkRequest 1 1 1 "SAVINGS" PENDING) (mkBranch 1 "B001") 0
                         eq_refl eq_refl eq_refl eq_refl eq_refl))).
Defined.

(** X9.  A decline by staff, with a remark, of a PENDING request marks it
    REJECTED and touches nothing else: no account, transaction, entry or
    serial changes.  The request is then closed: every later approval or
    decline of it is answered with an error and writes nothing, so a
    declined request never opens an account. *)
Theorem declined_request_is_closed
        (s : Store) (ctx : Ctx) (req_id : Z) (remark : string) (ar : AccountRequest) :
  is_staff s ctx = true ->
  remark <> ""%string ->
  get_request s req_id = Some ar ->
  ar_status ar = PENDING ->
  let s' := fst (ops_decline_request s ctx req_id remark) in
  snd (ops_decline_request s ctx req_id remark) = DeclineOk REJECTED
  /\ get_request s' req_id
     = Some (mkRequest (ar_id ar) (ar_customer_id ar) (ar_branch_id ar) (ar_product ar)
                       REJECTED)
  /\ same_books s s'
  /\ account_number_seq s' = account_number_seq s
  /\ (forall ctx' init_raw,
         exists e, ops_approve_request s' ctx' req_id init_raw = (s', ApproveFail e))
  /\ (forall ctx' remark',
         exists e, ops_decline_request s' ctx' req_id remark' = (s', DeclineFail e)).
Proof.
  intros Hstaff Hrem Hreq Hst s'. apply String.eqb_neq in Hrem.
  assert (E : ops_decline_request s ctx req_id remark
              = (set_account_requests s
                   (set_request_status (ar_id ar) REJECTED (account_requests s)),
                 DeclineOk REJECTED)).
  { unfold ops_decline_request. rewrite Hstaff, Hrem, Hreq, Hst. reflexivity. }
  unfold s'. rewrite E. cbn [fst snd].
  assert (Hreq' : get_request
                    (set_account_requests s
                       (set_request_status (ar_id ar) REJECTED (account_requests s)))
                    req_id
                  = Some (mkRequest (ar_id ar) (ar_customer_id ar) (ar_branch_id ar)
                                    (ar_product ar) REJECTED)).
  { unfold get_request. cbn [account_requests set_account_requests].
    apply get_request_set_status. exact Hreq. }
  split; [reflexivity|]. split; [exact Hreq'|]. split; [repeat split|].
  split; [reflexivity|].
  apply (decided_request_is_closed _ req_id _ Hreq'). discriminate.
Qed.

Lemma declined_request_is_closed_witness :
  snd (ops_decline_request seed (teller 100) 3 "documents unreadable") = DeclineOk REJECTED
  /\ exists e,
      ops_approve_request (fst (ops_decline_request seed (teller 100) 3 "documents unreadable"))
                          (teller 101) 3 RawMissing
      = (fst (ops_decline_request seed (teller 100) 3 "documents unreadable"), ApproveFail e).
Proof.
  assert (Hrem : "documents unreadable"%string <> ""%string) by discriminate.
  pose proof (declined_request_is_closed seed (teller 100) 3 "documents unreadable"
                (mkRequest 3 3 2 "CURRENT" PENDING) eq_refl Hrem eq_refl eq_refl) as H.
  split; [exact (proj1 H)|].
  exact (proj1 (proj2 (proj2 (proj2 (proj2 H)))) (teller 101) RawMissing).
Defined.

(** ** Loans *)

Lemma disburse_ok (s : Store) (ctx : Ctx) (loan_app_id : Z) (r : DisburseRequest)
      (app : LoanApplication) (acc : Account) (amt : Z) :
  is_staff s ctx = true ->
  dr_rate_valid r = true ->
  dr_term_valid r = true ->
  get_loan_application s loan_app_id = Some app ->
  la_status app = APPROVED ->
  account_by_no s (dr_account_no r) = Some acc ->
  is_active acc = true ->
  disburse_amount (dr_amount r) app = Some amt ->
  0 < amt ->
  ops_loan_disburse s ctx loan_app_id r
  = (snd (post_entries s ctx LOAN_DISBURSAL None (Some GL_BANK_LOAN)
                       (Some (acc_id acc)) None amt),
     DisburseOk (la_id app) (acc_id acc) (account_no acc) amt).
Proof.
  intros Hstaff Hrate Hterm Happ Hst Hacc Hact Hamt Hpos.
  unfold ops_loan_disburse. unfold get_loan_application in Happ. unfold is_active in Hact.
  rewrite Hstaff, Hrate, Hterm, Happ, Hst, Hacc, Hact, Hamt. cbn [negb RequestStatus_eqb].
  apply Z.leb_gt in Hpos. rewrite Hpos. reflexivity.
Qed.

Lemma disburse_ok_inv (s s' : Store) (ctx : Ctx) (loan_app_id : Z) (r : DisburseRequest)
      (a b amt : Z) (no : string) :
  ops_loan_disburse s ctx loan_app_id r = (s', DisburseOk a b no amt) ->
  exists app acc,
    is_staff s ctx = true /\ dr_rate_valid r = true /\ dr_term_valid r = true
    /\ get_loan_application s loan_app_id = Some app
    /\ la_status app = APPROVED
    /\ account_by_no s (dr_account_no r) = Some acc
    /\ is_active acc = true
    /\ disburse_amount (dr_amount r) app = Some amt
    /\ 0 < amt
    /\ a = la_id app /\ b = acc_id acc /\ no = account_no acc.
Proof.
  unfold ops_loan_disburse, get_loan_application, is_active.
  destruct (is_staff s ctx); cbn [negb]; [|discriminate].
  destruct (dr_rate_valid r); cbn [negb]; [|discriminate].
  destruct (dr_term_valid r); cbn [negb]; [|discriminate].
  destruct (find _ (loan_applications s)) as [app|] eqn:Eapp; [|discriminate].
  destruct (RequestStatus_eqb (la_status app) APPROVED) eqn:Est; cbn [negb]; [|discriminate].
  destruct (account_by_no s (dr_account_no r)) as [acc|] eqn:Eacc; [|discriminate].
  destruct (AccountStatus_eqb (acc_status acc) ACTIVE) eqn:Eact; cbn [negb]; [|discriminate].
  destruct (disburse_amount (dr_amount r) app) as [amt'|] eqn:Eamt; [|discriminate].
  destruct (Z.leb_spec amt' 0) as [Hle|Hpos]; [discriminate|].
  change (post_entries s ctx LOAN_DISBURSAL None (Some GL_BANK_LOAN) (Some (acc_id acc))
                       None amt')
    with (mkTx (next_id (transactions s)) LOAN_DISBURSAL POSTED (current_user ctx)
               (Some (now ctx)),
          snd (post_entries s ctx LOAN_DISBURSAL None (Some GL_BANK_LOAN)
                            (Some (acc_id acc)) None amt')).
  cbv iota beta. intro Hres. apply pair_equal_spec in Hres. destruct Hres as [_ Hr].
  injection Hr as Ha Hb Hno Hamt. subst.
  exists app, acc. apply RequestStatus_eqb_eq in Est.
  repeat split; first [reflexivity|assumption].
Qed.

(** X10.  A disbursal does not close the application: after a successful
    disbursal the application is still APPROVED, and the same request
    from the same user succeeds again and credits the account a second
    time. *)
Theorem disbursal_can_be_repeated
        (s s1 : Store) (ctx ctx' : Ctx) (loan_app_id : Z) (r : DisburseRequest)
        (a b amt : Z) (no : string) :
  ops_loan_disburse s ctx loan_app_id r = (s1, DisburseOk a b no amt) ->
  current_user ctx' = current_user ctx ->
  get_loan_application s1 loan_app_id = get_loan_application s loan_app_id
  /\ ledger_balance s1 b = ledger_balance s b + amt
  /\ exists s2,
      ops_loan_disburse s1 ctx' loan_app_id r = (s2, DisburseOk a b no amt)
      /\ ledger_balance s2 b = ledger_balance s b + 2 * amt.
Proof.
  intros H Huser.
  destruct (disburse_ok_inv _ _ _ _ _ _ _ _ _ H)
    as [app [acc [Hstaff [Hrate [Hterm [Happ [Hst [Hacc [Hact [Hamt [Hpos [-> [-> ->]]]]]]]]]]]]].
  rewrite (disburse_ok s ctx loan_app_id r app acc amt) in H by assumption.
  apply pair_equal_spec in H. destruct H as [<- _].
  set (s1' := snd (post_entries s ctx LOAN_DISBURSAL None (Some GL_BANK_LOAN)
                                (Some (acc_id acc)) None amt)).
  assert (B1 : ledger_balance s1' (acc_id acc) = ledger_balance s (acc_id acc) + amt).
  { unfold s1'. rewrite balance_after_post. cbn [is_account]. rewrite Z.eqb_refl. lia. }
  split; [reflexivity|]. split; [exact B1|].
  assert (Hstaff' : is_staff s1' ctx' = true).
  { unfold is_staff, _has_role in *. rewrite Huser. exact Hstaff. }
  eexists. split.
  - apply (disburse_ok s1' ctx' loan_app_id r app acc amt); assumption.
  - rewrite balance_after_post. cbn [is_account]. rewrite Z.eqb_refl, B1. lia.
Qed.

Lemma disbursal_can_be_repeated_witness :
  exists s1 s2,
    ops_loan_disburse opened (teller 300) 1 (mkDisburse bob_no RawMissing true true)
    = (s1, DisburseOk 1 2 bob_no 250000)
    /\ ops_loan_disburse s1 (teller 301) 1 (mkDisburse bob_no RawMissing true true)
       = (s2, DisburseOk 1 2 bob_no 250000)
    /\ ledger_balance s2 2 = ledger_balance opened 2 + 2 * 250000.
Proof.
  destruct (disbursal_can_be_repeated opened _ (teller 300) (teller 301) 1
              (mkDisburse bob_no RawMissing true true) 1 2 250000 bob_no eq_refl eq_refl)
    as [_ [_ [s2 [H2 B2]]]].
  eexists. exists s2. split; [reflexivity|]. split; [exact H2|exact B2].
Defined.

Lemma get_loan_set_status (l : list LoanApplication) (id : Z) (app : LoanApplication)
      (st : RequestStatus) :
  find (fun a => la_id a =? id) l = Some app ->
  find (fun a => la_id a =? id) (set_loan_status (la_id app) st l)
  = Some (mkLoanApp (la_id app) (la_customer_id app) (la_amount app) st).
Proof.
  intro H. assert (Hid : la_id app = id).
  { apply find_some in H. apply Z.eqb_eq, H. }
  rewrite Hid at 1. revert H.
  induction l as [|h l IH]; simpl; [discriminate|].
  destruct (la_id h =? id) eqn:E.
  - intro H. inversion H; subst. simpl. rewrite Z.eqb_refl. reflexivity.
  - intro H. rewrite E. apply IH, H.
Qed.

Lemma undisbursable (s : Store) (loan_app_id : Z) (app : LoanApplication) :
  get_loan_application s loan_app_id = Some app ->
  la_status app <> APPROVED ->
  forall ctx r, exists e, ops_loan_disburse s ctx loan_app_id r = (s, DisburseFail e).
Proof.
  intros Happ Hst ctx r. unfold ops_loan_disburse.
  destruct (negb (is_staff s ctx)); [eexists; reflexivity|].
  destruct (negb (dr_rate_valid r)); [eexists; reflexivity|].
  destruct (negb (dr_term_valid r)); [eexists; reflexivity|].
  unfold get_loan_application in Happ. rewrite Happ.
  destruct (RequestStatus_eqb (la_status app) APPROVED) eqn:E.
  - apply RequestStatus_eqb_eq in E. contradiction.
  - eexists. reflexivity.
Qed.

(** X11.  Approval is the gate of disbursal.  While a loan application is
    PENDING every disbursal of it is refused and writes nothing.  A staff
    approval with readable rate and term marks it APPROVED, adds exactly
    one loan whose principal is the amount applied for, and leaves the
    books alone; from then on a disbursal to an ACTIVE account that names
    no amount credits the amount applied for. *)
Theorem loan_approval_opens_disbursal
        (s : Store) (loans : Table Loan) (ctx : Ctx) (loan_app_id : Z)
        (rate_raw term_raw : RawAmount) (app : LoanApplication) (rate term : Z) :
  is_staff s ctx = true ->
  loan_rate rate_raw = Some rate ->
  loan_term term_raw = Some term ->
  get_loan_application s loan_app_id = Some app ->
  la_status app = PENDING ->
  let res := ops_loan_approve s loans ctx loan_app_id rate_raw term_raw in
  let s' := fst (fst res) in
  (forall ctx' r, exists e, ops_loan_disburse s ctx' loan_app_id r = (s, DisburseFail e))
  /\ snd res = LoanApproved (la_id app) (next_id loans) APPROVED
  /\ rows (snd (fst res))
     = rows loans ++ [mkLoan (next_id loans) (la_customer_id app) (la_amount app) rate term
                             LOAN_ACTIVE]
  /\ same_books s s'
  /\ get_loan_application s' loan_app_id
     = Some (mkLoanApp (la_id app) (la_customer_id app) (la_amount app) APPROVED)
  /\ (forall acc_no acc,
         account_by_no s acc_no = Some acc ->
         is_active acc = true ->
         0 < la_amount app ->
         snd (ops_loan_disburse s' ctx loan_app_id (mkDisburse acc_no RawMissing true true))
         = DisburseOk (la_id app) (acc_id acc) (account_no acc) (la_amount app)).
Proof.
  intros Hstaff Hrate Hterm Happ Hst res s'.
  assert (E : res = (set_loan_applications s
                       (set_loan_status (la_id app) APPROVED (loan_applications s)),
                     mkTable (rows loans
                              ++ [mkLoan (next_id loans) (la_customer_id app) (la_amount app)
                                         rate term LOAN_ACTIVE])
                             (next_id loans + 1),
                     LoanApproved (la_id app) (next_id loans) APPROVED)).
  { unfold res, ops_loan_approve. rewrite Hstaff, Hrate, Hterm, Happ, Hst. reflexivity. }
  assert (Happ' : get_loan_application
                    (set_loan_applications s
                       (set_loan_status (la_id app) APPROVED (loan_applications s)))
                    loan_app_id
                  = Some (mkLoanApp (la_id app) (la_customer_id app) (la_amount app) APPROVED)).
  { unfold get_loan_application. cbn [loan_applications set_loan_applications].
    apply get_loan_set_status. exact Happ. }
  split.
  { apply (undisbursable s loan_app_id app Happ). rewrite Hst. discriminate. }
  unfold s'. rewrite E. cbn [fst snd].
  split; [reflexivity|]. split; [reflexivity|]. split; [repeat split|].
  split; [exact Happ'|].
  intros acc_no acc Hacc Hact Hpos.
  rewrite (disburse_ok _ ctx loan_app_id (mkDisburse acc_no RawMissing true true)
             (mkLoanApp (la_id app) (la_customer_id app) (la_amount app) APPROVED)
             acc (la_amount app));
    [reflexivity|exact Hstaff|reflexivity|reflexivity|exact Happ'|reflexivity
     |exact Hacc|exact Hact|reflexivity|exact Hpos].
Qed.

Lemma loan_approval_opens_disbursal_witness :
  snd (ops_loan_approve
         (set_loan_applications opened [mkLoanApp 7 2 120000 PENDING])
         (mkTable [] 1) (teller 300) 7 RawMissing (RawText (Some 24)))
  = LoanApproved 7 1 APPROVED.
Proof.
  exact (proj1 (proj2 (loan_approval_opens_disbursal
                         (set_loan_applications opened [mkLoanApp 7 2 120000 PENDING])
                         (mkTable [] 1) (teller 300) 7 RawMissing (RawText (Some 24))
                         (mkLoanApp 7 2 120000 PENDING) 1000 24
                         eq_refl eq_refl eq_refl eq_refl eq_refl))).
Defined.

(** X12.  A staff decline, with a remark, of a PENDING loan application
    marks it REJECTED and leaves the books alone; afterwards every
    disbursal, approval and decline of it is answered with an error and
    writes nothing. *)
Theorem declined_loan_is_never_disbursed
        (s : Store) (ctx : Ctx) (loan_app_id : Z) (remark : string) (app : LoanApplication) :
  is_staff s ctx = true ->
  remark <> ""%string ->
  get_loan_application s loan_app_id = Some app ->
  la_status app = PENDING ->
  let s' := fst (ops_loan_decline s ctx loan_app_id remark) in
  snd (ops_loan_decline s ctx loan_app_id remark) = LoanDeclined (la_id app) REJECTED
  /\ same_books s s'
  /\ (forall ctx' r, exists e, ops_loan_disburse s' ctx' loan_app_id r = (s', DisburseFail e))
  /\ (forall loans ctx' rate_raw term_raw,
         exists e, ops_loan_approve s' loans ctx' loan_app_id rate_raw term_raw
                   = (s', loans, LoanFail e))
  /\ (forall ctx' remark',
         exists e, ops_loan_decline s' ctx' loan_app_id remark' = (s', LoanFail e)).
Proof.
  intros Hstaff Hrem Happ Hst s'. apply String.eqb_neq in Hrem.
  assert (E : ops_loan_decline s ctx loan_app_id remark
              = (set_loan_applications s
                   (set_loan_status (la_id app) REJECTED (loan_applications s)),
                 LoanDeclined (la_id app) REJECTED)).
  { unfold ops_loan_decline. rewrite Hstaff, Hrem, Happ, Hst. reflexivity. }
  unfold s'. rewrite E. cbn [fst snd].
  set (s1 := set_loan_applications s
               (set_loan_status (la_id app) REJECTED (loan_applications s))).
  assert (Happ' : get_loan_application s1 loan_app_id
                  = Some (mkLoanApp (la_id app) (la_customer_id app) (la_amount app) REJECTED)).
  { unfold get_loan_application, s1. cbn [loan_applications set_loan_applications].
    apply get_loan_set_status. exact Happ. }
  split; [reflexivity|]. split; [repeat split|]. split; [|split].
  - apply (undisbursable s1 loan_app_id _ Happ'). discriminate.
  - intros loans ctx' rate_raw term_raw. unfold ops_loan_approve.
    destruct (negb (is_staff s1 ctx')); [eexists; reflexivity|].
    destruct (loan_rate rate_raw); [|eexists; reflexivity].
    destruct (loan_term term_raw); [|eexists; reflexivity].
    rewrite Happ'. eexists. reflexivity.
  - intros ctx' remark'. unfold ops_loan_decline.
    destruct (negb (is_staff s1 ctx')); [eexists; reflexivity|].
    destruct (String.eqb remark' ""); [eexists; reflexivity|].
    rewrite Happ'. eexists. reflexivity.
Qed.

Lemma declined_loan_is_never_disbursed_witness :
  snd (ops_loan_decline (set_loan_applications opened [mkLoanApp 7 2 120000 PENDING])
                        (teller 300) 7 "income not proven")
  = LoanDeclined 7 REJECTED.
Proof.
  assert (Hrem : "income not proven"%string <> ""%string) by discriminate.
  exact (proj1 (declined_loan_is_never_disbursed
                  (set_loan_applications opened [mkLoanApp 7 2 120000 PENDING])
                  (teller 300) 7 "income not proven" (mkLoanApp 7 2 120000 PENDING)
                  eq_refl Hrem eq_refl eq_refl)).
Defined.

(** ** Account numbers are never reused *)

Lemma to_int_not_nil (n : Z) : Z.to_int n <> Decimal.Pos Decimal.Nil
                               /\ Z.to_int n <> Decimal.Neg Decimal.Nil.
Proof.
  assert (Hn : Z.to_int n = Decimal.norm (Z.to_int n)).
  { rewrite <- DecimalZ.to_of, DecimalZ.of_to. reflexivity. }
  split; intro E; rewrite E in Hn; simpl in Hn; discriminate.
Qed.

Lemma str_of_int_inj (n m : Z) : str_of_int n = str_of_int m -> n = m.
Proof.
  unfold str_of_int. intro H.
  apply (f_equal NilZero.int_of_string) in H.
  destruct (to_int_not_nil n) as [Hn1 Hn2]. destruct (to_int_not_nil m) as [Hm1 Hm2].
  rewrite !NilZero.isi in H by assumption.
  inversion H as [E]. apply DecimalZ.to_int_inj, E.
Qed.

Lemma append_inj_l (p a b : string) : (p ++ a)%string = (p ++ b)%string -> a = b.
Proof.
  induction p as [|c p IH]; simpl; intro H; [exact H|].
  inversion H. apply IH. assumption.
Qed.

Lemma numbered_inj (br : Branch) (n m : Z) : numbered br n = numbered br m -> n = m.
Proof. unfold numbered. intro H. apply str_of_int_inj, (append_inj_l _ _ _ H). Qed.

(** X13.  No account number is handed out twice for a branch: over any
    sequence of requests the numbers issued for one branch are pairwise
    distinct. *)
Theorem issued_account_numbers_are_distinct
        (verify : string -> string -> bool) (s : Store) (b : Z) (br : Branch)
        (reqs : list (Ctx * Op)) :
  seq_keys_ok s ->
  get_branch s b = Some br ->
  NoDup (issued verify s b reqs).
Proof.
  intros Hok Hbr.
  destruct (issued_run verify b br reqs s Hok Hbr) as [H _].
  rewrite H. apply Finite.Injective_map_NoDup; [|apply seq_NoDup].
  intros x y E. apply numbered_inj in E. lia.
Qed.

Lemma issued_account_numbers_are_distinct_witness :
  NoDup (issued plain_verify seed 1
                [(teller 100, OpApprove 1 RawMissing);
                 (teller 101, OpApprove 2 RawMissing);
                 (teller 102, OpApprove 3 RawMissing)]).
Proof.
  assert (Hok : seq_keys_ok seed) by (split; constructor).
  exact (issued_account_numbers_are_distinct plain_verify seed 1 (mkBranch 1 "B001") _
           Hok eq_refl).
Defined.

(** ** Internet banking PIN *)














(** ** Presence of an account *)

Lemma order_by_nil_iff {A : Type} (leb : A -> A -> bool) (l : list A) :
  order_by leb l = [] <-> l = [].
Proof.
  split; intro H.
  - apply Permutation_nil. rewrite <- H. apply Permutation_sym, order_by_perm.
  - subst. reflexivity.
Qed.

Lemma first_account_iff_any (s : Store) (ctx : Ctx) (active_only : bool) :
  (match _first_account_for_user s ctx active_only with Some _ => true | None => false end)
  = _has_any_account s ctx active_only.
Proof.
  unfold _first_account_for_user, _has_any_account.
  destruct (_get_customer s ctx) as [cust|]; [|reflexivity].
  set (f := fun a => (acc_customer_id a =? cust_id cust)
                     && (negb active_only || AccountStatus_eqb (acc_status a) ACTIVE)).
  destruct (order_by created_first (filter f (rows (accounts s)))) as [|x l] eqn:E.
  - apply order_by_nil_iff in E. simpl.
    induction (rows (accounts s)) as [|a rest IH]; [reflexivity|].
    simpl in *. destruct (f a); [discriminate|]. exact (IH E).
  - simpl. symmetry. apply existsb_exists.
    assert (Hin : In x (order_by created_first (filter f (rows (accounts s)))))
      by (rewrite E; left; reflexivity).
    apply order_by_In, filter_In in Hin. exists x. exact Hin.
Qed.

(** X17.  Approval gives the customer an active account.  After a
    successful approval, the customer of the request is reported by
    [me_account_presence] as having an account and an active account,
    and passes the account guard that opens [ib_transfer] and the PIN
    handlers. *)
Theorem approval_gives_an_active_account
        (s : Store) (ctx : Ctx) (req_id : Z) (init_raw : RawAmount)
        (ar : AccountRequest) (br : Branch) (amt : Z) (ctx' : Ctx) (cust : Customer) :
  is_staff s ctx = true ->
  approve_initial_deposit init_raw = inr amt ->
  get_request s req_id = Some ar ->
  ar_status ar = PENDING ->
  get_branch s (ar_branch_id ar) = Some br ->
  _get_customer s ctx' = Some cust ->
  cust_id cust = ar_customer_id ar ->
  let s' := fst (ops_approve_request s ctx req_id init_raw) in
  me_account_presence s' ctx' = (true, true)
  /\ _has_any_account s' ctx' false = true.
Proof.
  intros Hstaff Hinit Hreq Hst Hbr Hcust Hid s'.
  destruct (approve_success s ctx req_id init_raw ar br amt Hstaff Hinit Hreq Hst Hbr)
    as [_ [Hacc _]].
  destruct (approve_keeps_directory s ctx req_id init_raw) as [_ [_ [Ec _]]].
  assert (Hany : forall b, _has_any_account s' ctx' b = true).
  { intro b. unfold _has_any_account, _get_customer. fold s' in Ec. rewrite Ec.
    unfold _get_customer in Hcust. rewrite Hcust.
    apply existsb_exists. fold s' in Hacc. rewrite Hacc.
    eexists. split; [apply in_or_app; right; left; reflexivity|].
    cbn. rewrite Hid, Z.eqb_refl, orb_true_r. reflexivity. }
  split; [|apply Hany].
  unfold me_account_presence. rewrite !first_account_iff_any, !Hany. reflexivity.
Qed.

Lemma approval_gives_an_active_account_witness :
  me_account_presence seed (carol 100) = (false, false)
  /\ me_account_presence (fst (ops_approve_request seed (teller 100) 3 RawMissing)) (carol 101)
     = (true, true).
Proof.
  split; [reflexivity|].
  exact (proj1 (approval_gives_an_active_account seed (teller 100) 3 RawMissing
                  (mkRequest 3 3 2 "CURRENT" PENDING) (mkBranch 2 "B002") 0
                  (carol 101) (mkCustomer 3 30)
                  eq_refl eq_refl eq_refl eq_refl eq_refl eq_refl eq_refl)).
Defined.

(** ** Following the cursor *)

Lemma sorted_before_last {A : Type} (R : A -> A -> Prop) (l : list A) (z : A) :
  StronglySorted R l -> last_row l = Some z -> forall x, In x l -> x = z \/ R x z.
Proof.
  induction l as [|h l IH]; intros Hs Hl x Hx; [contradiction|].
  inversion Hs as [|? ? Hs' Hh]; subst.
  destruct l as [|h' l'].
  - simpl in Hl. inversion Hl; subst. destruct Hx as [<-|[]]. left. reflexivity.
  - assert (Hz : In z (h' :: l')).
    { clear - Hl. change (last_row (h :: h' :: l')) with (last_row (h' :: l')) in Hl.
      revert h' Hl. induction l' as [|y l' IH]; intros h' Hl.
      - simpl in Hl. inversion Hl. left. reflexivity.
      - right. apply (IH y). exact Hl. }
    destruct Hx as [<-|Hx].
    + right. rewrite Forall_forall in Hh. apply Hh, Hz.
    + apply IH; assumption.
Qed.

(** X18.  Following the cursor never repeats an entry.  When every entry
    carries its posting time and a page comes with cursor [c], every
    entry of the page was posted at [c] or later, and every entry of any
    page asked with [before = c] was posted strictly before [c]: the two
    pages share no entry.  Entries posted exactly at [c] that did not fit
    on the first page are on no page reached through the cursor. *)
Theorem next_page_is_strictly_older
        (s : Store) (ctx : Ctx) (id : Z) (before_raw : BeforeArg) (limit_raw : LimitArg)
        (items : list Item) (c : Z) (limit' : Z) :
  Forall (fun e => posted_at e <> None) (rows (ledger_entries s)) ->
  account_transactions s ctx id before_raw limit_raw = HistoryOk items (Some c) ->
  let page := history_rows s id (cursor_of before_raw) (page_limit limit_raw) in
  let next := history_rows s id (Some c) limit' in
  (forall r, In r page -> exists p, posted_at (fst r) = Some p /\ c <= p)
  /\ (forall r, In r next -> exists p, posted_at (fst r) = Some p /\ p < c)
  /\ (forall r, In r page -> ~ In r next).
Proof.
  intros Hall Hresp page next.
  assert (Hcur : next_cursor page = Some c).
  { unfold account_transactions in Hresp.
    destruct (owned_account s ctx id) as [acc|]; [|discriminate].
    destruct before_raw; inversion Hresp; reflexivity. }
  assert (Hled : forall r lim b, In r (history_rows s id b lim) ->
                                 In (fst r) (rows (ledger_entries s))
                                 /\ forall t, b = Some t ->
                                              exists p, posted_at (fst r) = Some p /\ p < t).
  { intros [e t] lim b Hr. unfold history_rows in Hr.
    apply In_firstn, order_by_In, In_history_candidates in Hr. cbn [fst]. tauto. }
  assert (Hpage : forall r, In r page -> exists p, posted_at (fst r) = Some p /\ c <= p).
  { unfold next_cursor in Hcur.
    destruct (last_row page) as [z|] eqn:Ez; [|discriminate].
    assert (Hz : In z page).
    { clear - Ez. induction page as [|h l IH]; [discriminate|].
      destruct l as [|h' l']; [inversion Ez; left; reflexivity|].
      right. apply IH. exact Ez. }
    assert (Hzc : posted_at (fst z) = Some c).
    { unfold row_time in Hcur. destruct (posted_at (fst z)) as [p|] eqn:Ep; [exact Hcur|].
      exfalso. rewrite Forall_forall in Hall.
      apply (Hall (fst z) (proj1 (Hled z _ _ Hz))). exact Ep. }
    assert (Hsorted : StronglySorted (fun x y => row_newest_first x y = true) page).
    { unfold page, history_rows. apply StronglySorted_firstn, order_by_sorted;
        [apply row_newest_first_total|apply row_newest_first_trans]. }
    intros r Hr.
    destruct (sorted_before_last _ page z Hsorted Ez r Hr) as [->|Hrz].
    - exists c. split; [exact Hzc|lia].
    - unfold row_newest_first in Hrz. apply newest_first_spec in Hrz.
      unfold listed_before in Hrz. rewrite Hzc in Hrz.
      destruct (posted_at (fst r)) as [p|]; [|contradiction].
      exists p. split; [reflexivity|lia]. }
  assert (Hnext : forall r, In r next -> exists p, posted_at (fst r) = Some p /\ p < c).
  { intros r Hr. exact (proj2 (Hled r _ _ Hr) c eq_refl). }
  split; [exact Hpage|]. split; [exact Hnext|].
  intros r Hp Hn.
  destruct (Hpage r Hp) as [p [E1 H1]]. destruct (Hnext r Hn) as [q [E2 H2]].
  rewrite E1 in E2. inversion E2. lia.
Qed.

Lemma next_page_is_strictly_older_witness :
  exists items,
    account_transactions busy (alice 900) 1 BeforeAbsent (LimitInt 2) = HistoryOk items (Some 200)
    /\ forall r, In r (history_rows busy 1 None 2) -> ~ In r (history_rows busy 1 (Some 200) 20).
Proof.
  assert (Hall : Forall (fun e => posted_at e <> None) (rows (ledger_entries busy))).
  { repeat constructor; discriminate. }
  eexists. split; [reflexivity|].
  exact (proj2 (proj2 (next_page_is_strictly_older busy (alice 900) 1 BeforeAbsent (LimitInt 2)
                         _ 200 20 Hall eq_refl))).
Defined.

(** ** Upload file names *)

Lemma after_last_dot_none (s : string) :
  after_last_dot s = None <-> contains_dot s = false.
Proof.
  induction s as [|c s IH]; simpl; [tauto|].
  destruct (after_last_dot s) as [e|].
  - split; [discriminate|]. intro H. apply orb_false_iff in H.
    destruct H as [_ H]. apply IH in H. discriminate.
  - destruct (Ascii.eqb c "."); simpl; [split; discriminate|].
    split; [intros _; apply IH; reflexivity|reflexivity].
Qed.

Lemma after_last_dot_app (base ext : string) :
  contains_dot ext = false ->
  after_last_dot (base ++ String "." ext) = Some ext.
Proof.
  intro H. apply after_last_dot_none in H.
  induction base as [|c base IH]; simpl.
  - rewrite H. reflexivity.
  - rewrite IH. reflexivity.
Qed.

(** X19.  [_allowed_file] looks at the last extension only, ignoring
    case: a name without a dot is refused, and a name [base.ext] whose
    [ext] has no dot is accepted exactly when [ext], lowered, is one of
    png, jpg, jpeg, webp, pdf, whatever [base] is (so [a.pdf.exe] is
    refused and [a.exe.PDF] is accepted). *)
Theorem allowed_file_is_decided_by_last_extension (base ext name : string) :
  (contains_dot name = false -> _allowed_file name = false)
  /\ (contains_dot ext = false ->
      _allowed_file (base ++ String "." ext)
      = existsb (String.eqb (lower ext)) ALLOWED_EXTENSIONS)
  /\ (contains_dot ext = false ->
      _allowed_file (base ++ String "." ext) = _allowed_file (String "." (lower ext))).
Proof.
  assert (Hlow : forall s, contains_dot s = false -> contains_dot (lower s) = false).
  { induction s as [|c s IH]; simpl; [reflexivity|].
    intro H. apply orb_false_iff in H. destruct H as [Hc Hs].
    rewrite (IH Hs), orb_false_r.
    unfold lower_ascii.
    destruct ((65 <=? nat_of_ascii c) && (nat_of_ascii c <=? 90))%nat eqn:Eu; [|exact Hc].
    apply andb_true_iff in Eu. destruct Eu as [E1 E2].
    apply Nat.leb_le in E1. apply Nat.leb_le in E2.
    destruct (Ascii.eqb_spec (ascii_of_nat (nat_of_ascii c + 32)) "."%char) as [E|E];
      [|reflexivity].
    exfalso. apply (f_equal nat_of_ascii) in E.
    rewrite nat_ascii_embedding in E by lia.
    change (nat_of_ascii ".") with 46%nat in E. lia. }
  assert (Hidem : forall s, lower (lower s) = lower s).
  { induction s as [|c s IH]; simpl; [reflexivity|]. rewrite IH. f_equal.
    unfold lower_ascii at 1.
    destruct ((65 <=? nat_of_ascii (lower_ascii c))
              && (nat_of_ascii (lower_ascii c) <=? 90))%nat eqn:Eu; [|reflexivity].
    exfalso. apply andb_true_iff in Eu. destruct Eu as [E1 E2].
    apply Nat.leb_le in E1. apply Nat.leb_le in E2.
    unfold lower_ascii in E1, E2.
    destruct ((65 <=? nat_of_ascii c) && (nat_of_ascii c <=? 90))%nat eqn:Ec.
    - apply andb_true_iff in Ec. destruct Ec as [F1 F2].
      apply Nat.leb_le in F1. apply Nat.leb_le in F2.
      rewrite nat_ascii_embedding in E1, E2 by lia. lia.
    - apply andb_false_iff in Ec. destruct Ec as [F|F]; apply Nat.leb_gt in F; lia. }
  split; [|split].
  - intro H. unfold _allowed_file. apply after_last_dot_none in H. rewrite H. reflexivity.
  - intro H. unfold _allowed_file. rewrite (after_last_dot_app base ext H). reflexivity.
  - intro H. unfold _allowed_file.
    rewrite (after_last_dot_app base ext H).
    pose proof (after_last_dot_app "" (lower ext) (Hlow ext H)) as H2.
    cbn [append] in H2. rewrite H2, Hidem. reflexivity.
Qed.

Lemma allowed_file_is_decided_by_last_extension_witness :
  _allowed_file "statement.exe.PDF" = true
  /\ _allowed_file "statement.pdf.exe" = false
  /\ _allowed_file "passport" = false
  /\ _allowed_file ("scan.v2" ++ String "." "JpEg")
     = existsb (String.eqb (lower "JpEg")) ALLOWED_EXTENSIONS.
Proof.
  repeat (split; [reflexivity|]).
  exact (proj1 (proj2 (allowed_file_is_decided_by_last_extension "scan.v2" "JpEg" "passport"))
           eq_refl).
Defined.

(** ** A transfer as its two parties read it *)

Lemma filter_none {A : Type} (f : A -> bool) (l : list A) :
  (forall x, In x l -> f x = false) -> filter f l = [].
Proof.
  induction l as [|x l IH]; simpl; intro H; [reflexivity|].
  rewrite (H x (or_introl eq_refl)). apply IH. intros y Hy. apply H. right. exact Hy.
Qed.

Lemma get_account_of_member (s : Store) (a : Account) :
  keys_ok acc_id (accounts s) -> In a (rows (accounts s)) -> get_account s (acc_id a) = Some a.
Proof.
  intros [Hnd _] Hin. unfold get_account.
  destruct (find (fun x => acc_id x =? acc_id a) (rows (accounts s))) as [b|] eqn:E.
  - apply find_some in E. destruct E as [Hb Eb]. apply Z.eqb_eq in Eb.
    f_equal. exact (NoDup_map_eq acc_id _ b a Hnd Hb Hin Eb).
  - exfalso. apply (find_none _ _ E) in Hin. rewrite Z.eqb_refl in Hin. discriminate.
Qed.

Lemma old_entries_are_no_siblings (s : Store) (le : LedgerEntry) :
  references_ok s ->
  transaction_id le = next_id (transactions s) ->
  filter (is_sibling le) (rows (ledger_entries s)) = [].
Proof.
  intros [[_ Hlt] [_ [_ Hrefs]]] Hle. apply filter_none. intros e He.
  rewrite Forall_forall in Hrefs. destruct (Hrefs e He) as [[t [Ht Et]] _].
  rewrite Forall_forall in Hlt. specialize (Hlt t Ht).
  unfold is_sibling. rewrite Hle.
  destruct (Z.eqb_spec (transaction_id e) (next_id (transactions s))); [lia|reflexivity].
Qed.

(** X20.  A transfer read back.  In a store with sound keys and
    references and no account keyed 0, the two entries of an accepted
    transfer are the last rows of the ledger, and their history items
    name the other party: the source's item is a DR from its own number
    to the destination's number, the destination's item a CR from the
    source's number to its own. *)
Theorem transfer_items_name_the_other_party
        (verify : string -> string -> bool) (s : Store) (ctx : Ctx)
        (r : TransferRequest) (p : TransferPlan) :
  references_ok s ->
  Forall (fun a => acc_id a <> 0) (rows (accounts s)) ->
  transfer_checks verify s ctx r = inr p ->
  let s' := fst (ib_transfer verify s ctx r) in
  let tx := mkTx (next_id (transactions s)) TRANSFER POSTED (current_user ctx)
                 (Some (now ctx)) in
  let debit := mkEntry (next_id (ledger_entries s)) (tx_id tx)
                       (Some (acc_id (tp_from p))) None "DR" (tp_amount p) (Some (now ctx)) in
  let credit := mkEntry (next_id (ledger_entries s) + 1) (tx_id tx)
                        (Some (acc_id (tp_to p))) None "CR" (tp_amount p) (Some (now ctx)) in
  rows (ledger_entries s') = rows (ledger_entries s) ++ [debit; credit]
  /\ format_item s' (tp_from p) (debit, tx)
     = mkItem (Some (now ctx)) TRANSFER
              (account_no (tp_from p)) (str_or (account_no (tp_to p)) "N/A")
              (Some (account_no (tp_from p))) (Some (account_no (tp_to p)))
              "DR" (tp_amount p)
  /\ format_item s' (tp_to p) (credit, tx)
     = mkItem (Some (now ctx)) TRANSFER
              (str_or (account_no (tp_from p)) "N/A") (account_no (tp_to p))
              (Some (account_no (tp_from p))) (Some (account_no (tp_to p)))
              "CR" (tp_amount p).
Proof.
  intros Hrefs Hnz Hp s' tx debit credit.
  destruct (transfer_checks_ok verify s ctx r p Hp) as [Hne _].
  destruct (transfer_checks_members verify s ctx r p Hp) as [Hf [Ht _]].
  apply resolve_account_In in Hf. apply resolve_account_In in Ht.
  assert (Hs' : s' = snd (post_entries s ctx TRANSFER (Some (acc_id (tp_from p))) None
                                       (Some (acc_id (tp_to p))) None (tp_amount p))).
  { unfold s', ib_transfer. rewrite Hp, transfer_post_ok. reflexivity. }
  assert (Hrows : rows (ledger_entries s') = rows (ledger_entries s) ++ [debit; credit]).
  { rewrite Hs', post_entries_ledger. reflexivity. }
  assert (Ka : keys_ok acc_id (accounts s)) by (destruct Hrefs as [_ [_ [K _]]]; exact K).
  assert (Hget : forall a, In a (rows (accounts s)) -> get_account s' (acc_id a) = Some a).
  { intros a Ha. rewrite Hs'. exact (get_account_of_member s a Ka Ha). }
  assert (Htruthy : forall a, In a (rows (accounts s)) ->
                              truthy_id (Some (acc_id a)) = Some (acc_id a)).
  { intros a Ha. rewrite Forall_forall in Hnz. specialize (Hnz a Ha).
    unfold truthy_id. destruct (Z.eqb_spec (acc_id a) 0); [contradiction|reflexivity]. }
  assert (E1 : (acc_id (tp_from p) =? acc_id (tp_to p)) = false) by (apply Z.eqb_neq; exact Hne).
  assert (E2 : (acc_id (tp_to p) =? acc_id (tp_from p)) = false)
    by (apply Z.eqb_neq; congruence).
  assert (Idd : is_sibling debit debit = false).
  { unfold is_sibling, debit. cbn. rewrite !Z.eqb_refl. reflexivity. }
  assert (Idc : is_sibling debit credit = true).
  { unfold is_sibling, debit, credit. cbn. rewrite Z.eqb_refl, E2. reflexivity. }
  assert (Icd : is_sibling credit debit = true).
  { unfold is_sibling, debit, credit. cbn. rewrite Z.eqb_refl, E1. reflexivity. }
  assert (Icc : is_sibling credit credit = false).
  { unfold is_sibling, credit. cbn. rewrite !Z.eqb_refl. reflexivity. }
  assert (Sd : siblings s' debit = [credit]).
  { unfold siblings. rewrite Hrows, filter_app.
    rewrite (old_entries_are_no_siblings s debit Hrefs eq_refl).
    cbn [filter app]. rewrite Idd, Idc. reflexivity. }
  assert (Sc : siblings s' credit = [debit]).
  { unfold siblings. rewrite Hrows, filter_app.
    rewrite (old_entries_are_no_siblings s credit Hrefs eq_refl).
    cbn [filter app]. rewrite Icd, Icc. reflexivity. }
  split; [exact Hrows|]. split.
  - unfold format_item, _format_counterparty. rewrite Sd.
    cbn [account_id credit]. rewrite (Htruthy _ Ht), (Hget _ Ht). reflexivity.
  - unfold format_item, _format_counterparty. rewrite Sc.
    cbn [account_id debit]. rewrite (Htruthy _ Hf), (Hget _ Hf). reflexivity.
Qed.

Lemma transfer_items_name_the_other_party_witness :
  it_to (format_item
           (fst (ib_transfer plain_verify opened (alice 200) (pay alice_no bob_no 30000 "1234")))
           alice_account
           (mkEntry 3 2 (Some 1) None "DR" 30000 (Some 200),
            mkTx 2 TRANSFER POSTED 10 (Some 200)))
  = bob_no.
Proof.
  assert (Hrefs : references_ok opened).
  { split; [|split; [|split]].
    - split; [repeat constructor; simpl; tauto|repeat constructor].
    - split; [repeat constructor; simpl; intuition discriminate|repeat constructor].
    - split; [repeat constructor; simpl; intuition discriminate|repeat constructor].
    - repeat constructor.
      + eexists. split; [left; reflexivity|reflexivity].
      + discriminate.
      + eexists. split; [left; reflexivity|reflexivity].
      + intros a Ha. inversion Ha; subst. eexists. split; [left; reflexivity|reflexivity]. }
  assert (Hnz : Forall (fun a => acc_id a <> 0) (rows (accounts opened))).
  { repeat constructor; discriminate. }
  exact (f_equal it_to
           (proj1 (proj2 (transfer_items_name_the_other_party plain_verify opened (alice 200)
                            (pay alice_no bob_no 30000 "1234")
                            (mkPlan alice_account
                                    (mkAccount 2 2 1 bob_no "SAVINGS" ACTIVE 101) 30000)
                            Hrefs Hnz eq_refl)))).
Defined.
